(** * CCI divergence scanner: the indicator pipeline of [src/lib/cci.ts]

    A shallow embedding of the numeric core of the scanner
    ([sma], [ema], [meanDeviation], [calculateCCI], [findPivots],
    [calcStrength], [getQuality], [detectDivergences]) and the properties
    of it that the specification states.

    Numbers.  A JavaScript [number] is modelled by [num]: not-a-number,
    the two infinities, or a finite value.  Finite values are exact
    rationals: rounding, overflow to infinity and the sign of zero are not
    modelled.  The special values follow IEEE 754 as JavaScript does
    (division by zero, [Infinity - Infinity], comparisons with [NaN]).
    The properties stated are about the undefined markers, the
    comparisons and the structure of the loops, which rounding leaves
    alone; where rounding decides, module [Double] at the end runs the
    code on binary64.

    Arrays.  [number[]] is [list num]; reading an array of numbers out of
    range gives [undefined], which every use in this file ([isNaN],
    comparisons, arithmetic) treats as [NaN], so [get] returns [NaN]
    there.  Reading a field of a missing [Bar] throws a [TypeError]:
    [detectDivergences] returns [None] in that case.

    Loops.  A [for] loop that pushes one element per index is
    [push_loop]; the other loops are [fold_left] over the index range. *)

From Stdlib Require Import List Bool Arith ZArith QArith Qabs Lia Lqa.
From Stdlib Require Import Sorted.
From Stdlib Require String.
From Stdlib Require Floats.
Import ListNotations.

Set Implicit Arguments.
Open Scope nat_scope.

(* ================================================================== *)
(** * JavaScript numbers                                                *)
(* ================================================================== *)

Module Num.

Inductive num : Type :=
| NaN  : num
| PInf : num
| NInf : num
| Fin  : Q -> num.

Definition of_Z (z : Z) : num := Fin (inject_Z z).
Definition of_nat (n : nat) : num := of_Z (Z.of_nat n).

Definition zero : num := Fin 0.

(** [isNaN(x)] *)
Definition isNaN (x : num) : bool :=
  match x with NaN => true | _ => false end.

Definition isFinite (x : num) : bool :=
  match x with Fin _ => true | _ => false end.

Definition Qlt_bool (a b : Q) : bool := negb (Qle_bool b a).

(** unary minus *)
Definition neg (x : num) : num :=
  match x with
  | NaN => NaN
  | PInf => NInf
  | NInf => PInf
  | Fin q => Fin (- q)
  end.

(** [x + y] *)
Definition add (x y : num) : num :=
  match x, y with
  | NaN, _ | _, NaN => NaN
  | PInf, NInf | NInf, PInf => NaN
  | PInf, _ | _, PInf => PInf
  | NInf, _ | _, NInf => NInf
  | Fin a, Fin b => Fin (a + b)
  end.

(** [x - y] *)
Definition sub (x y : num) : num := add x (neg y).

(** the infinity of the sign of a finite non-zero factor *)
Definition inf_signed (positive : bool) : num :=
  if positive then PInf else NInf.

(** [x * y] *)
Definition mul (x y : num) : num :=
  match x, y with
  | NaN, _ | _, NaN => NaN
  | PInf, PInf | NInf, NInf => PInf
  | PInf, NInf | NInf, PInf => NInf
  | PInf, Fin q | Fin q, PInf =>
      if Qeq_bool q 0 then NaN else inf_signed (Qlt_bool 0 q)
  | NInf, Fin q | Fin q, NInf =>
      if Qeq_bool q 0 then NaN else inf_signed (Qlt_bool q 0)
  | Fin a, Fin b => Fin (a * b)
  end.

(** [x / y]; a finite zero divisor is the positive zero *)
Definition div (x y : num) : num :=
  match x, y with
  | NaN, _ | _, NaN => NaN
  | (PInf | NInf), (PInf | NInf) => NaN
  | PInf, Fin q => inf_signed (Qle_bool 0 q)
  | NInf, Fin q => inf_signed (Qlt_bool q 0)
  | Fin _, (PInf | NInf) => Fin 0
  | Fin a, Fin b =>
      if Qeq_bool b 0
      then (if Qeq_bool a 0 then NaN else inf_signed (Qlt_bool 0 a))
      else Fin (a / b)
  end.

(** [Math.abs(x)] *)
Definition abs (x : num) : num :=
  match x with
  | NaN => NaN
  | PInf | NInf => PInf
  | Fin q => Fin (Qabs q)
  end.

(** [x < y] *)
Definition ltb (x y : num) : bool :=
  match x, y with
  | NaN, _ | _, NaN => false
  | _, NInf => false
  | NInf, _ => true
  | PInf, _ => false
  | _, PInf => true
  | Fin a, Fin b => Qlt_bool a b
  end.

(** [x <= y] *)
Definition leb (x y : num) : bool :=
  match x, y with
  | NaN, _ | _, NaN => false
  | NInf, _ => true
  | _, NInf => false
  | _, PInf => true
  | PInf, _ => false
  | Fin a, Fin b => Qle_bool a b
  end.

(** [x > y] and [x >= y] *)
Definition gtb (x y : num) : bool := ltb y x.
Definition geb (x y : num) : bool := leb y x.

(** [x === y] on numbers *)
Definition eqb (x y : num) : bool :=
  match x, y with
  | PInf, PInf | NInf, NInf => true
  | Fin a, Fin b => Qeq_bool a b
  | _, _ => false
  end.

(** [Math.min(x, y)] *)
Definition min (x y : num) : num :=
  match x, y with
  | NaN, _ | _, NaN => NaN
  | _, _ => if ltb y x then y else x
  end.

(** truthiness of a number, as [||] and [if] test it *)
Definition truthy (x : num) : bool :=
  match x with
  | NaN => false
  | Fin q => negb (Qeq_bool q 0)
  | _ => true
  end.

(** [x || y] on numbers *)
Definition or_else (x y : num) : num := if truthy x then x else y.

End Num.

Import Num.

Declare Scope num_scope.
Delimit Scope num_scope with num.
Bind Scope num_scope with num.
Infix "+" := add : num_scope.
Infix "-" := sub : num_scope.
Infix "*" := mul : num_scope.
Infix "/" := div : num_scope.

(** [a[i]] for an array of numbers: [undefined] out of range acts as [NaN] *)
Definition get (a : list num) (i : nat) : num := nth i a NaN.

(** [for (let i = 0; i < n; i++) result.push(f(result, i))] *)
Definition push_loop (A : Type) (n : nat) (f : list A -> nat -> A) : list A :=
  fold_left (fun result i => result ++ [f result i]) (seq 0 n) [].

(** [a.slice(start, end)] for [0 <= start] *)
Definition slice (A : Type) (a : list A) (start stop : nat) : list A :=
  firstn (stop - start) (skipn start a).

(** [a.reduce((x, y) => x + y, 0)] *)
Definition sum (a : list num) : num :=
  fold_left (fun x y => (x + y)%num) a zero.

(* ================================================================== *)
(** * Smoothing primitives                                              *)
(* ================================================================== *)

(** [function sma(values, period)] *)
Definition sma (values : list num) (period : nat) : list num :=
  push_loop (length values) (fun _ i =>
    if (Z.of_nat i <? Z.of_nat period - 1)%Z then NaN
    else
      let window := slice values (i + 1 - period) (i + 1) in
      (sum window / of_nat period)%num).

(** [function ema(values, period)] *)
Definition ema_multiplier (period : nat) : num :=
  (of_Z 2 / (of_nat period + of_Z 1))%num.

Definition ema (values : list num) (period : nat) : list num :=
  let multiplier := ema_multiplier period in
  push_loop (length values) (fun result i =>
    if Nat.eqb i 0 then get values i
    else if isNaN (get result (i - 1)) then get values i
    else ((get values i - get result (i - 1)) * multiplier
          + get result (i - 1))%num).

(** [function meanDeviation(values, period)] *)
Definition meanDeviation (values : list num) (period : nat) : list num :=
  push_loop (length values) (fun _ i =>
    if (Z.of_nat i <? Z.of_nat period - 1)%Z then NaN
    else
      let window := slice values (i + 1 - period) (i + 1) in
      let mean := (sum window / of_nat period)%num in
      let deviation :=
        (fold_left (fun a b => (a + abs (b - mean))%num) window zero
         / of_nat period)%num in
      deviation).

(* ================================================================== *)
(** * Indicator calculator                                              *)
(* ================================================================== *)

(** [interface Bar] of [src/lib/polygon.ts] *)
Record Bar : Type := mkBar {
  o : num;  (* open *)
  h : num;  (* high *)
  l : num;  (* low *)
  c : num;  (* close *)
  v : num;  (* volume *)
  t : num   (* timestamp *)
}.

(** [a.map((x, i) => f(x, i))] *)
Fixpoint mapi_from (A B : Type) (f : A -> nat -> B) (i : nat) (a : list A)
  : list B :=
  match a with
  | [] => []
  | x :: rest => f x i :: mapi_from f (S i) rest
  end.

Definition mapi (A B : Type) (f : A -> nat -> B) (a : list A) : list B :=
  mapi_from f 0 a.

(** the result object of [calculateCCI] *)
Record Indicators : Type := mkIndicators {
  ind_cci : list num;
  ind_momentum : list num;
  ind_volume : list num;
  ind_avgVolume : list num
}.

(** typical price (HLC3) *)
Definition hlc3_of (bars : list Bar) : list num :=
  map (fun b => ((h b + l b + c b) / of_Z 3)%num) bars.

(** the callback of [hlc3.map] that gives the raw CCI *)
Definition rawCCI_at (tpSma meanDev : list num) (tp : num) (i : nat) : num :=
  if isNaN (get tpSma i) || isNaN (get meanDev i) || eqb (get meanDev i) zero
  then NaN
  else ((tp - get tpSma i) / (Fin (15 # 1000) * get meanDev i))%num.

Definition rawCCI_of (hlc3 : list num) (period : nat) : list num :=
  let tpSma := sma hlc3 period in
  let meanDev := meanDeviation hlc3 period in
  mapi (rawCCI_at tpSma meanDev) hlc3.

(** the callback of [cci.map] that gives the momentum *)
Definition momentum_at (cci : list num) (val : num) (i : nat) : num :=
  if Nat.eqb i 0 || isNaN val || isNaN (get cci (i - 1)) then NaN
  else (val - get cci (i - 1))%num.

(** [export function calculateCCI(bars, period = 20, smoothing = 5)] *)
Definition calculateCCI (bars : list Bar) (period smoothing : nat)
  : Indicators :=
  let hlc3 := hlc3_of bars in
  let volume := map v bars in
  let rawCCI := rawCCI_of hlc3 period in
  let cci1 := ema rawCCI smoothing in
  let cci := ema cci1 2 in
  let momentum := mapi (momentum_at cci) cci in
  let avgVolume := sma volume 20 in
  mkIndicators cci momentum volume avgVolume.

(* ================================================================== *)
(** * Pivot detector                                                    *)
(* ================================================================== *)

(** the pair of tests that both inner loops of [findPivots] run against
    the neighbour at index [k]; the flags are [(isLow, isHigh)] *)
Definition checkNeighbour (values : list num) (i k : nat)
  (flags : bool * bool) : bool * bool :=
  let '(isLow, isHigh) := flags in
  let isLow :=
    if isNaN (get values k) || gtb (get values i) (get values k)
    then false else isLow in
  let isHigh :=
    if isNaN (get values k) || ltb (get values i) (get values k)
    then false else isHigh in
  (isLow, isHigh).

(** the body of the outer loop for a candidate [i] that is not [NaN] *)
Definition pivotFlags (values : list num) (lookbackLeft lookbackRight i : nat)
  : bool * bool :=
  let flags := (true, true) in
  let flags :=
    fold_left (fun fl j => checkNeighbour values i (i - j) fl)
              (seq 1 lookbackLeft) flags in
  let flags :=
    fold_left (fun fl j => checkNeighbour values i (i + j) fl)
              (seq 1 lookbackRight) flags in
  flags.

Record Pivots : Type := mkPivots {
  lows : list nat;
  highs : list nat
}.

Definition pivotStep (values : list num) (lookbackLeft lookbackRight : nat)
  (acc : Pivots) (i : nat) : Pivots :=
  if isNaN (get values i) then acc (* continue *)
  else
    let '(isLow, isHigh) := pivotFlags values lookbackLeft lookbackRight i in
    let lows' := if isLow then lows acc ++ [i] else lows acc in
    let highs' := if isHigh then highs acc ++ [i] else highs acc in
    mkPivots lows' highs'.

(** [function findPivots(values, lookbackLeft = 5, lookbackRight = 5)] *)
Definition findPivots (values : list num) (lookbackLeft lookbackRight : nat)
  : Pivots :=
  fold_left (pivotStep values lookbackLeft lookbackRight)
            (seq lookbackLeft (length values - lookbackRight - lookbackLeft))
            (mkPivots [] []).

(* ================================================================== *)
(** * Strength scorer                                                   *)
(* ================================================================== *)

(** [function calcStrength(priceDiff, cciDiff, isExtreme, highVolume,
    momentumConfirm)] *)
Definition calcStrength (priceDiff cciDiff : num)
  (isExtreme highVolume momentumConfirm : bool) : num :=
  let priceScore := min (of_Z 3) (abs priceDiff * of_Z 100)%num in
  let cciScore := min (of_Z 3) (abs cciDiff / of_Z 30)%num in
  let extremeBonus := if isExtreme then Fin (3 # 2) else zero in
  let volumeBonus := if highVolume then of_Z 1 else zero in
  let momentumBonus := if momentumConfirm then of_Z 1 else zero in
  min (of_Z 10)
      (priceScore + cciScore + extremeBonus + volumeBonus + momentumBonus)%num.

Inductive Quality : Type := STRONG | MODERATE | WEAK.

(** [function getQuality(strength)] *)
Definition getQuality (strength : num) : Quality :=
  if geb strength (of_Z 7) then STRONG
  else if geb strength (of_Z 5) then MODERATE
  else WEAK.

(* ================================================================== *)
(** * Divergence classifier and recency filter                          *)
(* ================================================================== *)

Inductive DivergenceType : Type :=
| REG_BULL | REG_BEAR | HID_BULL | HID_BEAR | BREW_BULL | BREW_BEAR.

(** [interface Divergence] *)
Record Divergence : Type := mkDivergence {
  type : DivergenceType;
  strength : num;
  quality : Quality;
  cciValue : num;
  price : num;
  timestamp : num;
  volumeConfirmed : bool;
  momentumConfirmed : bool
}.

(** [if (strength >= minStrength) divergences.push({ ... })]: the records
    that one classification branch appends *)
Definition emit (minStrength : num) (ty : DivergenceType) (strength : num)
  (currCCI currPrice : num) (ts : num) (highVol momConfirm : bool)
  : list Divergence :=
  if geb strength minStrength
  then [mkDivergence ty strength (getQuality strength) currCCI currPrice ts
                     highVol momConfirm]
  else [].

Section Detect.

Variables (bars : list Bar) (cci momentum volume avgVolume : list num).
Variable minStrength : num.

(** [barDiff < 5 || barDiff > 60] *)
Definition gapRejected (prevIdx currIdx : nat) : bool :=
  let barDiff := (Z.of_nat currIdx - Z.of_nat prevIdx)%Z in
  (barDiff <? 5)%Z || (barDiff >? 60)%Z.

(** The body of the loop over pivot lows for the pair
    [(prevIdx, currIdx)]: the divergences it pushes, or [None] when
    [bars[currIdx]] or [bars[prevIdx]] is missing and [.l] throws. *)
Definition bullishAt (prevIdx currIdx : nat) : option (list Divergence) :=
  if gapRejected prevIdx currIdx then Some [] (* continue *)
  else
    let currCCI := get cci currIdx in
    let prevCCI := get cci prevIdx in
    match nth_error bars currIdx, nth_error bars prevIdx with
    | Some currBar, Some prevBar =>
        let currPrice := l currBar in
        let prevPrice := l prevBar in
        let isExtreme := ltb currCCI (of_Z (-100)) in
        let highVol :=
          gtb (get volume currIdx) (get avgVolume currIdx * Fin (12 # 10))%num in
        let momConfirm := gtb (get momentum currIdx) zero in
        (* Regular Bullish: Price Lower Low, CCI Higher Low *)
        let regular :=
          if ltb currPrice prevPrice && gtb currCCI prevCCI
          then emit minStrength REG_BULL
                 (calcStrength ((currPrice - prevPrice) / prevPrice)%num
                               (currCCI - prevCCI)%num
                               isExtreme highVol momConfirm)
                 currCCI currPrice (t currBar) highVol momConfirm
          else [] in
        (* Hidden Bullish: Price Higher Low, CCI Lower Low *)
        let hidden :=
          if gtb currPrice prevPrice && ltb currCCI prevCCI
          then emit minStrength HID_BULL
                 (calcStrength ((currPrice - prevPrice) / prevPrice)%num
                               (prevCCI - currCCI)%num
                               isExtreme highVol momConfirm)
                 currCCI currPrice (t currBar) highVol momConfirm
          else [] in
        Some (regular ++ hidden)
    | _, _ => None
    end.

(** The body of the loop over pivot highs. *)
Definition bearishAt (prevIdx currIdx : nat) : option (list Divergence) :=
  if gapRejected prevIdx currIdx then Some [] (* continue *)
  else
    let currCCI := get cci currIdx in
    let prevCCI := get cci prevIdx in
    match nth_error bars currIdx, nth_error bars prevIdx with
    | Some currBar, Some prevBar =>
        let currPrice := h currBar in
        let prevPrice := h prevBar in
        let isExtreme := gtb currCCI (of_Z 100) in
        let highVol :=
          gtb (get volume currIdx) (get avgVolume currIdx * Fin (12 # 10))%num in
        let momConfirm := ltb (get momentum currIdx) zero in
        (* Regular Bearish: Price Higher High, CCI Lower High *)
        let regular :=
          if gtb currPrice prevPrice && ltb currCCI prevCCI
          then emit minStrength REG_BEAR
                 (calcStrength ((currPrice - prevPrice) / prevPrice)%num
                               (prevCCI - currCCI)%num
                               isExtreme highVol momConfirm)
                 currCCI currPrice (t currBar) highVol momConfirm
          else [] in
        (* Hidden Bearish: Price Lower High, CCI Higher High *)
        let hidden :=
          if ltb currPrice prevPrice && gtb currCCI prevCCI
          then emit minStrength HID_BEAR
                 (calcStrength ((prevPrice - currPrice) / prevPrice)%num
                               (currCCI - prevCCI)%num
                               isExtreme highVol momConfirm)
                 currCCI currPrice (t currBar) highVol momConfirm
          else [] in
        Some (regular ++ hidden)
    | _, _ => None
    end.

(** [for (let i = 1; i < pivots.length; i++) { currIdx = pivots[i];
    prevIdx = pivots[i - 1]; ... }], pushing onto [divergences]; a throw
    in the body ends the loop *)
Definition pairLoop (body : nat -> nat -> option (list Divergence))
  (pivots : list nat) (divergences : list Divergence)
  : option (list Divergence) :=
  fold_left
    (fun acc i =>
       match acc with
       | None => None
       | Some ds =>
           let currIdx := nth i pivots 0%nat in
           let prevIdx := nth (i - 1) pivots 0%nat in
           match body prevIdx currIdx with
           | None => None
           | Some pushed => Some (ds ++ pushed)
           end
       end)
    (seq 1 (length pivots - 1))
    (Some divergences).

(** [bars[Math.max(0, bars.length - 15)]?.t || 0] *)
Definition recentTimestamp : num :=
  let recentBarIdx := (Z.of_nat (length bars) - 15)%Z in
  or_else
    match nth_error bars (Z.to_nat (Z.max 0 recentBarIdx)) with
    | Some b => t b
    | None => NaN (* undefined *)
    end
    zero.

(** the [divergences] array once both loops have run, before the
    recency filter *)
Definition collectDivergences : option (list Divergence) :=
  let lookbackLeft := 5%nat in
  let lookbackRight := 5%nat in
  let pivots := findPivots cci lookbackLeft lookbackRight in
  let cciLows := lows pivots in
  let cciHighs := highs pivots in
  match pairLoop bullishAt cciLows [] with
  | None => None
  | Some divergences => pairLoop bearishAt cciHighs divergences
  end.

(** [export function detectDivergences(bars, cci, momentum, volume,
    avgVolume, minStrength = 3.0)] *)
Definition detectDivergences : option (list Divergence) :=
  match collectDivergences with
  | None => None
  | Some divergences =>
      Some (filter (fun d => geb (timestamp d) recentTimestamp) divergences)
  end.

End Detect.

(* ================================================================== *)
(** * Loops that push one element per index                             *)
(* ================================================================== *)

Section PushLoop.

Variable A : Type.
Variable f : list A -> nat -> A.

Lemma push_loop_S (n : nat) :
  push_loop (S n) f = push_loop n f ++ [f (push_loop n f) n].
Proof.
  unfold push_loop. rewrite seq_S, fold_left_app. reflexivity.
Qed.

Lemma push_loop_length (n : nat) : length (push_loop n f) = n.
Proof.
  induction n as [|n IH]; [reflexivity|].
  rewrite push_loop_S, length_app, IH. simpl. lia.
Qed.

(** the array built after [n] rounds extends the one built after [i] *)
Lemma push_loop_nth (n i : nat) (d : A) :
  i < n -> nth i (push_loop n f) d = f (push_loop i f) i.
Proof.
  induction n as [|n IH]; intros Hi; [lia|].
  rewrite push_loop_S.
  destruct (Nat.eq_dec i n) as [->|Hne].
  - rewrite app_nth2; rewrite push_loop_length; [|lia].
    rewrite Nat.sub_diag. reflexivity.
  - rewrite app_nth1 by (rewrite push_loop_length; lia).
    apply IH. lia.
Qed.

Lemma push_loop_nth_prefix (n i k : nat) (d : A) :
  k < i -> i <= n -> nth k (push_loop i f) d = nth k (push_loop n f) d.
Proof.
  intros Hk Hi. rewrite !push_loop_nth by lia. reflexivity.
Qed.

End PushLoop.

Lemma mapi_from_length (A B : Type) (f : A -> nat -> B) (a : list A) (i : nat) :
  length (mapi_from f i a) = length a.
Proof.
  revert i. induction a as [|x a IH]; intros i; simpl; [reflexivity|].
  now rewrite IH.
Qed.

Lemma mapi_from_nth (A B : Type) (f : A -> nat -> B) (a : list A)
  (i k : nat) (da : A) (db : B) :
  k < length a ->
  nth k (mapi_from f i a) db = f (nth k a da) (i + k).
Proof.
  revert i k. induction a as [|x a IH]; intros i k Hk; simpl in *; [lia|].
  destruct k as [|k].
  - now rewrite Nat.add_0_r.
  - rewrite IH by lia. f_equal. lia.
Qed.

Lemma mapi_length (A B : Type) (f : A -> nat -> B) (a : list A) :
  length (mapi f a) = length a.
Proof. apply mapi_from_length. Qed.

Lemma mapi_nth (A B : Type) (f : A -> nat -> B) (a : list A)
  (k : nat) (da : A) (db : B) :
  k < length a -> nth k (mapi f a) db = f (nth k a da) k.
Proof. intros Hk. unfold mapi. now rewrite mapi_from_nth with (da := da). Qed.

(* ================================================================== *)
(** * The exponential average                                           *)
(* ================================================================== *)

Section Ema.

Variable values : list num.
Variable period : nat.

Lemma ema_length : length (ema values period) = length values.
Proof. unfold ema. apply push_loop_length. Qed.

Lemma ema_first :
  0 < length values -> get (ema values period) 0 = get values 0.
Proof.
  intros Hn. unfold ema, get. rewrite push_loop_nth by assumption.
  reflexivity.
Qed.

(** one round of the loop, read on the finished array *)
Lemma ema_step (i : nat) :
  0 < i < length values ->
  get (ema values period) i =
    if isNaN (get (ema values period) (i - 1)) then get values i
    else ((get values i - get (ema values period) (i - 1))
          * ema_multiplier period
          + get (ema values period) (i - 1))%num.
Proof.
  intros [Hpos Hlt]. unfold ema.
  set (F := fun (result : list num) (k : nat) => _).
  unfold get at 1. rewrite push_loop_nth by assumption.
  unfold F at 1.
  destruct (Nat.eqb_spec i 0) as [->|_]; [lia|].
  assert (Hprev : get (push_loop i F) (i - 1)
                  = get (push_loop (length values) F) (i - 1))
    by (apply push_loop_nth_prefix; lia).
  rewrite Hprev. reflexivity.
Qed.

(** while the input has not started, neither has the output *)
Lemma ema_leading_NaN (k : nat) :
  k < length values ->
  (forall j, j <= k -> isNaN (get values j) = true) ->
  isNaN (get (ema values period) k) = true.
Proof.
  induction k as [|k IH]; intros Hk Hall.
  - rewrite ema_first by lia. apply Hall. lia.
  - rewrite ema_step by lia.
    replace (S k - 1) with k by lia.
    rewrite IH by (try lia; intros; apply Hall; lia).
    apply Hall. lia.
Qed.

End Ema.

(** C6.  The exponential average is seeded by the first defined input,
    restarts on the current input wherever the previous output is
    undefined, and otherwise follows
    [output[i] = (input[i] - output[i-1]) * (2/(period+1)) + output[i-1]]. *)
Theorem ema_seed_restart_recurrence (values : list num) (period : nat) :
  let output := ema values period in
  (forall k, k < length values ->
     isNaN (get values k) = false ->
     (forall j, j < k -> isNaN (get values j) = true) ->
     get output k = get values k) /\
  (forall i, 0 < i < length values ->
     isNaN (get output (i - 1)) = true ->
     get output i = get values i) /\
  (forall i, 0 < i < length values ->
     isNaN (get output (i - 1)) = false ->
     get output i =
       ((get values i - get output (i - 1))
        * (of_Z 2 / (of_nat period + of_Z 1))
        + get output (i - 1))%num).
Proof.
  cbv zeta. split; [|split].
  - intros k Hk _ Hbefore.
    destruct k as [|k]; [apply ema_first; lia|].
    rewrite ema_step by lia. replace (S k - 1) with k by lia.
    rewrite ema_leading_NaN; [reflexivity|lia|].
    intros j Hj. apply Hbefore. lia.
  - intros i Hi Hprev. rewrite ema_step by assumption.
    now rewrite Hprev.
  - intros i Hi Hprev. rewrite ema_step by assumption.
    now rewrite Hprev.
Qed.

(** The three rules at work on [NaN, 1, 3] with period 1: the seed at
    index 1 and the recurrence at index 2. *)
Lemma ema_seed_restart_recurrence_witness :
  let values := [NaN; of_Z 1; of_Z 3] in
  get (ema values 1) 1 = of_Z 1 /\
  get (ema values 1) 1 = get values 1 /\
  get (ema values 1) 2 =
    ((get values 2 - get (ema values 1) 1)
     * (of_Z 2 / (of_nat 1 + of_Z 1)) + get (ema values 1) 1)%num.
Proof.
  cbv zeta.
  destruct (ema_seed_restart_recurrence [NaN; of_Z 1; of_Z 3] 1)
    as (Hseed & Hrestart & Hrec).
  split; [|split].
  - apply (Hseed 1); simpl; [lia|reflexivity|].
    intros j Hj. assert (j = 0) as -> by lia. reflexivity.
  - apply (Hrestart 1); [simpl; lia|reflexivity].
  - apply (Hrec 2); [simpl; lia|reflexivity].
Defined.

(* ================================================================== *)
(** * Arithmetic on finite values                                       *)
(* ================================================================== *)

(** a value that is finite or undefined: what a warm-up series holds *)
Definition finiteOrNaN (x : num) : Prop :=
  isNaN x = true \/ isFinite x = true.

Lemma isFinite_Fin (x : num) : isFinite x = true -> exists q, x = Fin q.
Proof. destruct x; try discriminate. intros _. now eexists. Qed.

Lemma isFinite_not_NaN (x : num) : isFinite x = true -> isNaN x = false.
Proof. now destruct x. Qed.

Lemma add_finite (x y : num) :
  isFinite x = true -> isFinite y = true -> isFinite (x + y)%num = true.
Proof. now destruct x, y. Qed.

Lemma sub_finite (x y : num) :
  isFinite x = true -> isFinite y = true -> isFinite (x - y)%num = true.
Proof. now destruct x, y. Qed.

Lemma mul_finite (x y : num) :
  isFinite x = true -> isFinite y = true -> isFinite (x * y)%num = true.
Proof. now destruct x, y. Qed.

Lemma abs_finite (x : num) : isFinite x = true -> isFinite (abs x) = true.
Proof. now destruct x. Qed.

Lemma Qeq_bool_false (a b : Q) : ~ (a == b)%Q -> Qeq_bool a b = false.
Proof.
  intros Hne. destruct (Qeq_bool a b) eqn:E; [|reflexivity].
  apply Qeq_bool_iff in E. contradiction.
Qed.

Lemma div_finite (x : num) (q : Q) :
  isFinite x = true -> ~ (q == 0)%Q -> isFinite (x / Fin q)%num = true.
Proof.
  intros Hx Hq. destruct x; try discriminate. simpl.
  now rewrite (Qeq_bool_false Hq).
Qed.

Lemma inject_nat_pos (n : nat) : 0 < n -> ~ (inject_Z (Z.of_nat n) == 0)%Q.
Proof.
  intros Hn Heq. unfold Qeq in Heq. simpl in Heq. lia.
Qed.

Lemma ema_multiplier_finite (period : nat) :
  isFinite (ema_multiplier period) = true.
Proof.
  unfold ema_multiplier, of_nat, of_Z. cbn [add].
  apply div_finite; [reflexivity|].
  intros Heq. unfold Qeq, Qplus in Heq. simpl in Heq. lia.
Qed.

(** On a series of finite and undefined values the exponential average
    is undefined exactly where its input is, and finite elsewhere. *)
Lemma ema_pattern (values : list num) (period : nat) :
  (forall i, i < length values -> finiteOrNaN (get values i)) ->
  forall i, i < length values ->
    isNaN (get (ema values period) i) = isNaN (get values i) /\
    finiteOrNaN (get (ema values period) i).
Proof.
  intros Hin i. induction i as [|i IH]; intros Hi.
  - rewrite ema_first by lia. split; [reflexivity|]. apply Hin. lia.
  - rewrite ema_step by lia. replace (S i - 1) with i by lia.
    destruct (IH ltac:(lia)) as [_ Hprev].
    destruct (isNaN (get (ema values period) i)) eqn:Enan.
    + split; [reflexivity|]. apply Hin. lia.
    + destruct Hprev as [Hprev|Hprev]; [congruence|].
      destruct (Hin (S i) Hi) as [Hv|Hv].
      * destruct (get values (S i)); try discriminate.
        split; [reflexivity|]. now left.
      * assert (Hres : isFinite
                  ((get values (S i) - get (ema values period) i)
                   * ema_multiplier period
                   + get (ema values period) i)%num = true).
        { apply add_finite; [|assumption].
          apply mul_finite; [|apply ema_multiplier_finite].
          now apply sub_finite. }
        split.
        -- rewrite (isFinite_not_NaN _ Hres), (isFinite_not_NaN _ Hv).
           reflexivity.
        -- now right.
Qed.

(** an infinity: a number as far as [isNaN] is concerned *)
Definition isInfinite (x : num) : bool :=
  match x with PInf | NInf => true | _ => false end.

(** for every period the multiplier is a positive number *)
Lemma ema_multiplier_positive (period : nat) :
  exists m : Q, ema_multiplier period = Fin m /\ (0 < m)%Q.
Proof.
  assert (Hq : (0 <= inject_Z (Z.of_nat period))%Q).
  { change 0%Q with (inject_Z 0). rewrite <- Zle_Qle. lia. }
  unfold ema_multiplier, of_nat, of_Z. cbn [add div].
  change (inject_Z 1) with 1%Q. change (inject_Z 2) with 2%Q.
  rewrite Qeq_bool_false by lra.
  eexists. split; [reflexivity|].
  apply Qlt_shift_div_l; lra.
Qed.

(** one step of the recurrence from a previous output that is a number:
    the result is undefined exactly when the input is, or when the
    previous output is an infinity *)
Lemma ema_recurrence_NaN (v r : num) (m : Q) :
  (0 < m)%Q -> isNaN r = false ->
  isNaN ((v - r) * Fin m + r)%num = isNaN v || isInfinite r.
Proof.
  intros Hm Hr.
  assert (E0 : Qeq_bool m 0 = false) by (apply Qeq_bool_false; lra).
  assert (E1 : Qlt_bool 0 m = true).
  { unfold Qlt_bool. apply negb_true_iff.
    destruct (Qle_bool m 0) eqn:E; [|reflexivity].
    apply Qle_bool_iff in E. lra. }
  assert (E2 : Qlt_bool m 0 = false).
  { unfold Qlt_bool. apply negb_false_iff. apply Qle_bool_iff. lra. }
  destruct v, r; try discriminate; cbn [sub neg add mul isNaN isInfinite orb];
    rewrite ?E0; cbn [inf_signed]; rewrite ?E1, ?E2; reflexivity.
Qed.

(** C10, amended.  [ema] returns a series of the length of its input,
    undefined at [i] exactly when the input is undefined at [i] or the
    previous output is an infinity.  An undefined input is always passed
    on, and as long as no output is an infinity the defined/undefined
    pattern of the output is that of the input. *)
Theorem ema_undefined_iff (values : list num) (period : nat) :
  length (ema values period) = length values /\
  (forall i, i < length values ->
     (isNaN (get (ema values period) i) = true <->
      isNaN (get values i) = true \/
      (0 < i /\ isInfinite (get (ema values period) (i - 1)) = true))) /\
  ((forall j, j < length values ->
      isInfinite (get (ema values period) j) = false) ->
   forall i, i < length values ->
     isNaN (get (ema values period) i) = isNaN (get values i)).
Proof.
  destruct (ema_multiplier_positive period) as (m & Em & Hm).
  assert (Hiff : forall i, i < length values ->
            (isNaN (get (ema values period) i) = true <->
             isNaN (get values i) = true \/
             (0 < i /\ isInfinite (get (ema values period) (i - 1)) = true))).
  { intros i Hi. destruct i as [|i].
    - rewrite ema_first by lia. split; [now left|].
      intros [H|[H _]]; [assumption|lia].
    - rewrite ema_step by lia. replace (S i - 1) with i by lia.
      destruct (isNaN (get (ema values period) i)) eqn:Eprev.
      + split; [now left|]. intros [H|[_ H]]; [assumption|].
        destruct (get (ema values period) i); discriminate.
      + rewrite Em, (@ema_recurrence_NaN _ _ _ Hm Eprev), orb_true_iff.
        split.
        * intros [H|H]; [now left|right; split; [lia|assumption]].
        * intros [H|[_ H]]; [now left|now right]. }
  split; [apply ema_length|]. split; [exact Hiff|].
  intros Hfinite i Hi.
  destruct (isNaN (get values i)) eqn:Ev.
  - apply Hiff; [assumption|now left].
  - destruct (isNaN (get (ema values period) i)) eqn:Eo; [|reflexivity].
    apply Hiff in Eo; [|assumption].
    destruct Eo as [H|[Hpos H]]; [congruence|].
    rewrite Hfinite in H by lia. discriminate.
Qed.

(** [ema([1, Infinity, 3], 5)]: the infinity at index 1 is passed on and
    makes index 2 undefined although the input there is a number. *)
Lemma ema_undefined_iff_witness :
  isNaN (get (ema [of_Z 1; PInf; of_Z 3] 5) 2) = true /\
  isNaN (get [of_Z 1; PInf; of_Z 3] 2) = false.
Proof.
  split; [|reflexivity].
  apply (proj1 (proj2 (ema_undefined_iff [of_Z 1; PInf; of_Z 3] 5)) 2);
    [simpl; lia|].
  right. split; [lia|reflexivity].
Defined.

(** C10 as stated fails on an infinite input: [ema([Infinity, 1], 5)] is
    [[Infinity, NaN]], undefined at index 1 where the input is defined. *)
Lemma ema_pattern_counterexample :
  ~ (forall (values : list num) (period i : nat),
       isNaN (get (ema values period) i) = true <->
       isNaN (get values i) = true).
Proof.
  intros Hclaim.
  destruct (Hclaim [PInf; of_Z 1] 5 1) as [Hout _].
  specialize (Hout eq_refl). discriminate Hout.
Qed.

(* ================================================================== *)
(** * Windowed mean and mean deviation                                  *)
(* ================================================================== *)

Definition allFinite (a : list num) : Prop :=
  Forall (fun x => isFinite x = true) a.

Lemma allFinite_slice (a : list num) (start stop : nat) :
  allFinite a -> allFinite (slice a start stop).
Proof.
  unfold allFinite, slice. intros Ha.
  rewrite <- (firstn_skipn start a) in Ha.
  apply Forall_app in Ha as [_ Ha].
  rewrite <- (firstn_skipn (stop - start) (skipn start a)) in Ha.
  now apply Forall_app in Ha as [Ha _].
Qed.

Lemma allFinite_get (a : list num) (i : nat) :
  allFinite a -> i < length a -> isFinite (get a i) = true.
Proof.
  intros Ha Hi. unfold allFinite in Ha. rewrite Forall_forall in Ha.
  apply Ha. unfold get. now apply nth_In.
Qed.

(** a [reduce] that adds a finite term per element stays finite *)
Lemma reduce_finite (g : num -> num) (a : list num) (acc : num) :
  (forall x, isFinite x = true -> isFinite (g x) = true) ->
  allFinite a -> isFinite acc = true ->
  isFinite (fold_left (fun x y => (x + g y)%num) a acc) = true.
Proof.
  intros Hg Ha. revert acc.
  induction Ha as [|y a Hy _ IH]; intros acc Hacc; simpl; [assumption|].
  apply IH. apply add_finite; [assumption|]. now apply Hg.
Qed.

Lemma sum_finite (a : list num) : allFinite a -> isFinite (sum a) = true.
Proof.
  intros Ha. unfold sum.
  now apply (reduce_finite (fun y => y)).
Qed.

Section Windows.

Variable values : list num.
Variable period : nat.

Lemma sma_length : length (sma values period) = length values.
Proof. apply push_loop_length. Qed.

Lemma meanDeviation_length :
  length (meanDeviation values period) = length values.
Proof. apply push_loop_length. Qed.

Lemma sma_nth (i : nat) :
  i < length values ->
  get (sma values period) i =
    if (Z.of_nat i <? Z.of_nat period - 1)%Z then NaN
    else (sum (slice values (i + 1 - period) (i + 1)) / of_nat period)%num.
Proof.
  intros Hi. unfold sma, get. now rewrite push_loop_nth.
Qed.

Lemma meanDeviation_nth (i : nat) :
  i < length values ->
  get (meanDeviation values period) i =
    if (Z.of_nat i <? Z.of_nat period - 1)%Z then NaN
    else
      let window := slice values (i + 1 - period) (i + 1) in
      let mean := (sum window / of_nat period)%num in
      (fold_left (fun a b => (a + abs (b - mean))%num) window zero
       / of_nat period)%num.
Proof.
  intros Hi. unfold meanDeviation, get. now rewrite push_loop_nth.
Qed.

(** during warm-up both windowed series are undefined *)
Lemma sma_warmup (i : nat) :
  i < length values -> i + 1 < period -> get (sma values period) i = NaN.
Proof.
  intros Hi Hw. rewrite sma_nth by assumption.
  destruct (Z.ltb_spec (Z.of_nat i) (Z.of_nat period - 1)); [reflexivity|lia].
Qed.

Hypothesis values_finite : allFinite values.
Hypothesis period_pos : 0 < period.

(** past warm-up, on finite prices, both are finite *)
Lemma sma_finite (i : nat) :
  i < length values -> period <= i + 1 ->
  isFinite (get (sma values period) i) = true.
Proof.
  intros Hi Hw. rewrite sma_nth by assumption.
  destruct (Z.ltb_spec (Z.of_nat i) (Z.of_nat period - 1)); [lia|].
  apply div_finite; [|now apply inject_nat_pos].
  apply sum_finite. now apply allFinite_slice.
Qed.

Lemma meanDeviation_finite (i : nat) :
  i < length values -> period <= i + 1 ->
  isFinite (get (meanDeviation values period) i) = true.
Proof.
  intros Hi Hw. rewrite meanDeviation_nth by assumption.
  destruct (Z.ltb_spec (Z.of_nat i) (Z.of_nat period - 1)); [lia|].
  cbv zeta.
  assert (Hmean : isFinite
            (sum (slice values (i + 1 - period) (i + 1)) / of_nat period)%num
            = true).
  { apply div_finite; [|now apply inject_nat_pos].
    apply sum_finite. now apply allFinite_slice. }
  apply div_finite; [|now apply inject_nat_pos].
  apply (reduce_finite (fun b => abs (b - _)%num)).
  - intros x Hx. apply abs_finite. now apply sub_finite.
  - now apply allFinite_slice.
  - reflexivity.
Qed.

End Windows.

(* ================================================================== *)
(** * The raw oscillator                                                *)
(* ================================================================== *)

Lemma rawCCI_length (hlc3 : list num) (period : nat) :
  length (rawCCI_of hlc3 period) = length hlc3.
Proof. unfold rawCCI_of. apply mapi_length. Qed.

Lemma rawCCI_nth (hlc3 : list num) (period i : nat) :
  i < length hlc3 ->
  get (rawCCI_of hlc3 period) i =
    rawCCI_at (sma hlc3 period) (meanDeviation hlc3 period) (get hlc3 i) i.
Proof.
  intros Hi. unfold rawCCI_of, get at 1.
  now rewrite mapi_nth with (da := NaN).
Qed.

Lemma hlc3_length (bars : list Bar) : length (hlc3_of bars) = length bars.
Proof. apply length_map. Qed.

Lemma scaled_divisor_nonzero (q : Q) :
  Qeq_bool q 0 = false -> Qeq_bool ((15 # 1000) * q) 0 = false.
Proof.
  intros Hq. apply Qeq_bool_false. intros Heq.
  apply Qmult_integral in Heq as [Heq|Heq]; [discriminate Heq|].
  apply Qeq_bool_iff in Heq. congruence.
Qed.

(* ================================================================== *)
(** * Sample bar sequences                                              *)
(* ================================================================== *)

(** a bar whose open, high, low and close are all [p], with volume 10 *)
Definition priceBar (p ts : Z) : Bar :=
  mkBar (of_Z p) (of_Z p) (of_Z p) (of_Z p) (of_Z 10) (of_Z ts).

(** prices 1, 3, 2: no window of two bars is flat *)
Definition risingBars : list Bar :=
  [priceBar 1 0; priceBar 3 1; priceBar 2 2].



(** C8.  On an empty bar sequence [calculateCCI] returns, and each of
    its four series is empty. *)
Theorem calculateCCI_empty (period smoothing : nat) :
  let r := calculateCCI [] period smoothing in
  ind_cci r = [] /\ ind_momentum r = [] /\
  ind_volume r = [] /\ ind_avgVolume r = [].
Proof.
  cbv zeta. unfold calculateCCI, rawCCI_of, hlc3_of, sma, meanDeviation.
  cbn [map length push_loop seq fold_left mapi mapi_from].
  unfold ema. cbn [length push_loop seq fold_left mapi mapi_from].
  repeat split.
Qed.

(* ================================================================== *)
(** * Where the oscillator is undefined                                 *)
(* ================================================================== *)

(** every price that enters the typical price is a finite number *)
Definition barsFinite (bars : list Bar) : Prop :=
  Forall (fun b => isFinite (h b) = true /\ isFinite (l b) = true /\
                   isFinite (c b) = true) bars.

Lemma hlc3_finite (bars : list Bar) :
  barsFinite bars -> allFinite (hlc3_of bars).
Proof.
  unfold barsFinite, allFinite, hlc3_of. intros Hb.
  apply Forall_map. revert Hb. apply Forall_impl.
  intros b (Hh & Hl & Hc).
  apply div_finite; [|discriminate].
  apply add_finite; [|assumption]. now apply add_finite.
Qed.

Section RawPattern.

Variable hlc3 : list num.
Variable period : nat.
Hypothesis hlc3_is_finite : allFinite hlc3.
Hypothesis period_pos : 0 < period.

(** on finite prices the raw oscillator is undefined during warm-up and
    on a window of zero mean deviation, and finite everywhere else *)
Lemma rawCCI_pattern (i : nat) :
  i < length hlc3 ->
  (isNaN (get (rawCCI_of hlc3 period) i) = true <->
   i + 1 < period \/ eqb (get (meanDeviation hlc3 period) i) zero = true) /\
  finiteOrNaN (get (rawCCI_of hlc3 period) i).
Proof.
  intros Hi. rewrite rawCCI_nth by assumption. unfold rawCCI_at.
  destruct (Nat.lt_ge_cases (i + 1) period) as [Hw|Hw].
  - rewrite sma_warmup by assumption. simpl.
    split; [|now left]. split; [now left|reflexivity].
  - pose proof (sma_finite hlc3_is_finite period_pos Hi Hw) as Hs.
    pose proof (meanDeviation_finite hlc3_is_finite period_pos Hi Hw) as Hm.
    pose proof (allFinite_get hlc3_is_finite Hi) as Ht.
    destruct (isFinite_Fin _ Hs) as [s Es].
    destruct (isFinite_Fin _ Hm) as [m Em].
    destruct (isFinite_Fin _ Ht) as [p Ep].
    rewrite Es, Em, Ep. cbn [isNaN orb].
    destruct (eqb (Fin m) zero) eqn:Ez.
    + split; [|now left]. split; [now right|reflexivity].
    + cbn [eqb zero] in Ez.
      cbn [mul sub neg add div].
      rewrite (scaled_divisor_nonzero _ Ez).
      split; [|now right].
      split; [discriminate|]. intros [Hlt|Habs]; [lia|discriminate].
Qed.

End RawPattern.

Lemma risingBars_finite : barsFinite risingBars.
Proof. repeat constructor. Qed.


(* ================================================================== *)
(** * Pivots                                                            *)
(* ================================================================== *)

Lemma leb_not_gtb (a b : num) :
  isNaN a = false -> isNaN b = false -> leb a b = negb (gtb a b).
Proof.
  unfold gtb. destruct a, b; try discriminate; intros _ _; try reflexivity.
  simpl. unfold Qlt_bool. now rewrite negb_involutive.
Qed.

Lemma geb_not_ltb (a b : num) :
  isNaN a = false -> isNaN b = false -> geb a b = negb (ltb a b).
Proof.
  unfold geb. destruct a, b; try discriminate; intros _ _; try reflexivity.
  simpl. unfold Qlt_bool. now rewrite negb_involutive.
Qed.

Lemma leb_defined (a b : num) :
  leb a b = true -> isNaN a = false /\ isNaN b = false.
Proof. destruct a, b; try discriminate; now split. Qed.

Lemma eqb_leb_geb (a b : num) : eqb a b = leb a b && geb a b.
Proof.
  unfold geb. destruct a as [| | |p], b as [| | |q]; try reflexivity.
  simpl. destruct (Qeq_bool p q) eqn:E.
  - apply Qeq_bool_iff in E. symmetry. apply andb_true_iff.
    split; apply Qle_bool_iff; rewrite E; apply Qle_refl.
  - symmetry. apply andb_false_iff.
    destruct (Qle_bool p q) eqn:E1; [|now left].
    destruct (Qle_bool q p) eqn:E2; [|now right].
    apply Qle_bool_iff in E1, E2.
    assert (Heq : (p == q)%Q) by now apply Qle_antisym.
    apply Qeq_bool_iff in Heq. congruence.
Qed.

Section Pivots.

Variable values : list num.
Variables lookbackLeft lookbackRight : nat.

(** what one neighbour must pass for the candidate [i] to stay a low,
    and to stay a high *)
Definition okLow (i k : nat) : bool :=
  negb (isNaN (get values k) || gtb (get values i) (get values k)).

Definition okHigh (i k : nat) : bool :=
  negb (isNaN (get values k) || ltb (get values i) (get values k)).

Lemma checkNeighbour_flags (i k : nat) (isLow isHigh : bool) :
  checkNeighbour values i k (isLow, isHigh)
  = (isLow && okLow i k, isHigh && okHigh i k).
Proof.
  unfold checkNeighbour, okLow, okHigh.
  destruct (isNaN (get values k) || gtb (get values i) (get values k)),
           (isNaN (get values k) || ltb (get values i) (get values k));
    simpl; now rewrite ?andb_true_r, ?andb_false_r.
Qed.

(** an inner loop keeps a flag exactly when every neighbour passes *)
Lemma scan_flags (i : nat) (at_ : nat -> nat) (js : list nat)
  (isLow isHigh : bool) :
  fold_left (fun fl j => checkNeighbour values i (at_ j) fl) js (isLow, isHigh)
  = (isLow && forallb (fun j => okLow i (at_ j)) js,
     isHigh && forallb (fun j => okHigh i (at_ j)) js).
Proof.
  revert isLow isHigh.
  induction js as [|j js IH]; intros isLow isHigh; cbn [fold_left forallb].
  - now rewrite !andb_true_r.
  - rewrite checkNeighbour_flags, IH. now rewrite !andb_assoc.
Qed.

Definition lowAt (i : nat) : bool :=
  forallb (fun j => okLow i (i - j)) (seq 1 lookbackLeft)
  && forallb (fun j => okLow i (i + j)) (seq 1 lookbackRight).

Definition highAt (i : nat) : bool :=
  forallb (fun j => okHigh i (i - j)) (seq 1 lookbackLeft)
  && forallb (fun j => okHigh i (i + j)) (seq 1 lookbackRight).

Lemma pivotFlags_eq (i : nat) :
  pivotFlags values lookbackLeft lookbackRight i = (lowAt i, highAt i).
Proof.
  unfold pivotFlags, lowAt, highAt.
  rewrite (scan_flags i (fun j => i - j)), (scan_flags i (fun j => i + j)).
  reflexivity.
Qed.

(** the outer loop appends, in index order, the candidates that pass *)
Lemma pivotLoop_filter (candidates : list nat) (acc : Pivots) :
  fold_left (pivotStep values lookbackLeft lookbackRight) candidates acc
  = mkPivots
      (lows acc ++ filter (fun i => negb (isNaN (get values i)) && lowAt i)
                          candidates)
      (highs acc ++ filter (fun i => negb (isNaN (get values i)) && highAt i)
                           candidates).
Proof.
  revert acc. induction candidates as [|i rest IH]; intros acc; simpl.
  - rewrite !app_nil_r. now destruct acc.
  - rewrite IH. unfold pivotStep. rewrite pivotFlags_eq.
    destruct (isNaN (get values i)); simpl; [reflexivity|].
    destruct (lowAt i), (highAt i); simpl;
      now rewrite <- ?app_assoc.
Qed.

Lemma findPivots_filter :
  findPivots values lookbackLeft lookbackRight
  = let candidates :=
      seq lookbackLeft (length values - lookbackRight - lookbackLeft) in
    mkPivots
      (filter (fun i => negb (isNaN (get values i)) && lowAt i) candidates)
      (filter (fun i => negb (isNaN (get values i)) && highAt i) candidates).
Proof. unfold findPivots. now rewrite pivotLoop_filter. Qed.

Lemma candidate_range (i : nat) :
  In i (seq lookbackLeft (length values - lookbackRight - lookbackLeft))
  <-> lookbackLeft <= i /\ i + lookbackRight < length values.
Proof. rewrite in_seq. lia. Qed.

(** the two windows of [i], as a set of indices *)
Definition inWindow (i k : nat) : Prop :=
  i - lookbackLeft <= k < i \/ i < k <= i + lookbackRight.

Lemma windows_forallb (ok : nat -> bool) (i : nat) :
  lookbackLeft <= i ->
  (forallb (fun j => ok (i - j)) (seq 1 lookbackLeft)
   && forallb (fun j => ok (i + j)) (seq 1 lookbackRight) = true
   <-> forall k, inWindow i k -> ok k = true).
Proof.
  intros Hi. rewrite andb_true_iff, !forallb_forall. unfold inWindow. split.
  - intros [Hl Hr] k [Hk|Hk].
    + replace k with (i - (i - k)) by lia. apply Hl. apply in_seq. lia.
    + replace k with (i + (k - i)) by lia. apply Hr. apply in_seq. lia.
  - intros Hall. split; intros j Hj; apply in_seq in Hj; apply Hall; lia.
Qed.

Lemma okLow_iff (i k : nat) :
  isNaN (get values i) = false ->
  (okLow i k = true <->
   isNaN (get values k) = false /\ leb (get values i) (get values k) = true).
Proof.
  intros Hi. unfold okLow. rewrite negb_true_iff, orb_false_iff. split.
  - intros [Hk Hgt]. split; [assumption|].
    rewrite leb_not_gtb by assumption. now rewrite Hgt.
  - intros [Hk Hle]. split; [assumption|].
    rewrite leb_not_gtb in Hle by assumption. now apply negb_true_iff in Hle.
Qed.

Lemma okHigh_iff (i k : nat) :
  isNaN (get values i) = false ->
  (okHigh i k = true <->
   isNaN (get values k) = false /\ geb (get values i) (get values k) = true).
Proof.
  intros Hi. unfold okHigh. rewrite negb_true_iff, orb_false_iff. split.
  - intros [Hk Hlt]. split; [assumption|].
    rewrite geb_not_ltb by assumption. now rewrite Hlt.
  - intros [Hk Hge]. split; [assumption|].
    rewrite geb_not_ltb in Hge by assumption. now apply negb_true_iff in Hge.
Qed.

Lemma low_pivot_iff (i : nat) :
  In i (lows (findPivots values lookbackLeft lookbackRight)) <->
  lookbackLeft <= i /\ i + lookbackRight < length values /\
  isNaN (get values i) = false /\
  forall k, inWindow i k ->
    isNaN (get values k) = false /\ leb (get values i) (get values k) = true.
Proof.
  rewrite findPivots_filter. cbn [lows]. rewrite filter_In, candidate_range.
  rewrite andb_true_iff, negb_true_iff. unfold lowAt. split.
  - intros [[Hl Hr] [Hi Hw]].
    split; [assumption|]. split; [assumption|]. split; [assumption|].
    intros k Hk. apply (@okLow_iff i k Hi).
    revert k Hk. now apply windows_forallb.
  - intros (Hl & Hr & Hi & Hw).
    split; [now split|]. split; [assumption|].
    apply windows_forallb; [assumption|].
    intros k Hk. apply (@okLow_iff i k Hi). now apply Hw.
Qed.

Lemma high_pivot_iff (i : nat) :
  In i (highs (findPivots values lookbackLeft lookbackRight)) <->
  lookbackLeft <= i /\ i + lookbackRight < length values /\
  isNaN (get values i) = false /\
  forall k, inWindow i k ->
    isNaN (get values k) = false /\ geb (get values i) (get values k) = true.
Proof.
  rewrite findPivots_filter. cbn [highs]. rewrite filter_In, candidate_range.
  rewrite andb_true_iff, negb_true_iff. unfold highAt. split.
  - intros [[Hl Hr] [Hi Hw]].
    split; [assumption|]. split; [assumption|]. split; [assumption|].
    intros k Hk. apply (@okHigh_iff i k Hi).
    revert k Hk. now apply windows_forallb.
  - intros (Hl & Hr & Hi & Hw).
    split; [now split|]. split; [assumption|].
    apply windows_forallb; [assumption|].
    intros k Hk. apply (@okHigh_iff i k Hi). now apply Hw.
Qed.

End Pivots.

(** eleven equal values: with the default lookbacks the only candidate
    is index 5 *)
Definition flatSeries : list num := repeat (of_Z 1) 11.

(** C1 as the specification words it: strictly below every neighbour
    of both windows *)
Definition strictLowSpec (values : list num) (lookbackLeft lookbackRight i : nat)
  : Prop :=
  lookbackLeft <= i /\ i + lookbackRight < length values /\
  isNaN (get values i) = false /\
  forall k, i - lookbackLeft <= k < i \/ i < k <= i + lookbackRight ->
    isNaN (get values k) = false /\ ltb (get values i) (get values k) = true.

(** C1, amended.  [findPivots] reports [i] as a low pivot exactly when
    [i] lies in [[lookbackLeft, n-1-lookbackRight]], [values[i]] is
    defined, every neighbour in the two windows is defined and
    [values[i]] is less than or equal to each of them; as a high pivot
    with greater than or equal.  Ties do not disqualify a candidate. *)
Theorem findPivots_iff (values : list num) (lookbackLeft lookbackRight i : nat) :
  (In i (lows (findPivots values lookbackLeft lookbackRight)) <->
   lookbackLeft <= i /\ i + lookbackRight < length values /\
   isNaN (get values i) = false /\
   forall k, i - lookbackLeft <= k < i \/ i < k <= i + lookbackRight ->
     isNaN (get values k) = false /\ leb (get values i) (get values k) = true)
  /\
  (In i (highs (findPivots values lookbackLeft lookbackRight)) <->
   lookbackLeft <= i /\ i + lookbackRight < length values /\
   isNaN (get values i) = false /\
   forall k, i - lookbackLeft <= k < i \/ i < k <= i + lookbackRight ->
     isNaN (get values k) = false /\ geb (get values i) (get values k) = true).
Proof.
  split; [apply low_pivot_iff | apply high_pivot_iff].
Qed.

(** C1 as stated fails on ties: in a flat series index 5 is reported as
    a low pivot although it is not strictly below any neighbour. *)
Lemma findPivots_strict_counterexample :
  ~ (forall (values : list num) (lookbackLeft lookbackRight i : nat),
       In i (lows (findPivots values lookbackLeft lookbackRight)) <->
       strictLowSpec values lookbackLeft lookbackRight i).
Proof.
  intros Hclaim.
  destruct (Hclaim flatSeries 5 5 5) as [Hstrict _].
  assert (Hlow : In 5 (lows (findPivots flatSeries 5 5)))
    by (vm_compute; now left).
  destruct (Hstrict Hlow) as (_ & _ & _ & Hwin).
  destruct (Hwin 4) as [_ Hlt]; [lia|].
  vm_compute in Hlt. discriminate Hlt.
Qed.

(** C2, amended.  An index is both a low and a high pivot exactly when
    it is a candidate whose neighbours in both windows are all defined
    and equal to [values[i]]; the two lists share no other index. *)
Theorem findPivots_both_iff (values : list num)
  (lookbackLeft lookbackRight i : nat) :
  In i (lows (findPivots values lookbackLeft lookbackRight)) /\
  In i (highs (findPivots values lookbackLeft lookbackRight)) <->
  lookbackLeft <= i /\ i + lookbackRight < length values /\
  isNaN (get values i) = false /\
  forall k, i - lookbackLeft <= k < i \/ i < k <= i + lookbackRight ->
    eqb (get values i) (get values k) = true.
Proof.
  rewrite low_pivot_iff, high_pivot_iff. unfold inWindow. split.
  - intros [(Hl & Hr & Hi & Hlow) (_ & _ & _ & Hhigh)].
    repeat (split; [assumption|]).
    intros k Hk. rewrite eqb_leb_geb. apply andb_true_iff.
    split; [now apply Hlow | now apply Hhigh].
  - intros (Hl & Hr & Hi & Heq).
    split; repeat (split; [assumption|]); intros k Hk;
      specialize (Heq k Hk); rewrite eqb_leb_geb in Heq;
      apply andb_true_iff in Heq as [Hle Hge];
      (split; [now apply (leb_defined _ _ Hle) | assumption]).
Qed.

(** C2 as stated fails on a flat series: index 5 is in both lists. *)
Lemma findPivots_disjoint_counterexample :
  ~ (forall (values : list num) (lookbackLeft lookbackRight i : nat),
       ~ (In i (lows (findPivots values lookbackLeft lookbackRight)) /\
          In i (highs (findPivots values lookbackLeft lookbackRight)))).
Proof.
  intros Hclaim.
  apply (Hclaim flatSeries 5 5 5).
  split; vm_compute; now left.
Qed.

(* ================================================================== *)
(** * Strength                                                          *)
(* ================================================================== *)

(** a finite value between two rational bounds *)
Definition inRange (lo hi : Q) (x : num) : Prop :=
  exists a : Q, x = Fin a /\ (lo <= a)%Q /\ (a <= hi)%Q.

(** not below zero, when it is a number at all *)
Definition nonNegative (x : num) : Prop :=
  match x with
  | NaN | PInf => True
  | NInf => False
  | Fin q => (0 <= q)%Q
  end.

Lemma abs_nonNegative (x : num) : nonNegative (abs x).
Proof. destruct x; simpl; auto. apply Qabs_nonneg. Qed.

Lemma Qlt_bool_true (a b : Q) : Qlt_bool a b = true -> (a < b)%Q.
Proof.
  unfold Qlt_bool. rewrite negb_true_iff. intros H.
  apply Qnot_le_lt. intros Hle. apply Qle_bool_iff in Hle. congruence.
Qed.

Lemma Qlt_bool_false (a b : Q) : Qlt_bool a b = false -> (b <= a)%Q.
Proof.
  unfold Qlt_bool. rewrite negb_false_iff. apply Qle_bool_iff.
Qed.

Lemma scale_nonNegative (x : num) (k : Q) :
  (0 < k)%Q -> nonNegative x -> nonNegative (x * Fin k)%num.
Proof.
  intros Hk. destruct x as [| | |q]; simpl; intros Hx.
  - exact I.
  - destruct (Qeq_bool k 0); simpl; [exact I|].
    destruct (Qlt_bool 0 k) eqn:E; simpl; [exact I|].
    apply Qlt_bool_false in E. lra.
  - contradiction.
  - apply Qmult_le_0_compat; lra.
Qed.

Lemma shrink_nonNegative (x : num) (k : Q) :
  (0 < k)%Q -> nonNegative x -> nonNegative (x / Fin k)%num.
Proof.
  intros Hk. destruct x as [| | |q]; simpl; intros Hx.
  - exact I.
  - destruct (Qle_bool 0 k) eqn:E; simpl; [exact I|].
    assert (Hle : (0 <= k)%Q) by lra. apply Qle_bool_iff in Hle. congruence.
  - contradiction.
  - rewrite Qeq_bool_false by lra. simpl.
    apply Qle_shift_div_l; lra.
Qed.

(** [Math.min(cap, x)] of a non-negative [x] is [NaN] or lies in
    [[0, cap]] *)
Lemma capped_score (cap : Q) (x : num) :
  (0 <= cap)%Q -> nonNegative x ->
  min (Fin cap) x = NaN \/ inRange 0 cap (min (Fin cap) x).
Proof.
  intros Hcap. destruct x as [| | |q]; simpl; intros Hx.
  - now left.
  - right. exists cap. repeat split; [assumption|lra].
  - contradiction.
  - right. destruct (Qlt_bool q cap) eqn:E.
    + apply Qlt_bool_true in E. exists q. repeat split; [assumption|lra].
    + exists cap. repeat split; [assumption|lra].
Qed.

Lemma inRange_add (lo1 hi1 lo2 hi2 : Q) (x y : num) :
  inRange lo1 hi1 x -> inRange lo2 hi2 y ->
  inRange (lo1 + lo2) (hi1 + hi2) (x + y)%num.
Proof.
  intros (a & -> & Ha1 & Ha2) (b & -> & Hb1 & Hb2).
  exists (a + b)%Q. simpl. repeat split; lra.
Qed.

Lemma bonus_range (flag : bool) (bonus : Q) :
  (0 <= bonus)%Q -> inRange 0 bonus (if flag then Fin bonus else zero).
Proof.
  intros Hb. destruct flag; [exists bonus | exists 0%Q];
    repeat split; lra.
Qed.

Lemma inRange_leb (lo hi : Q) (x : num) :
  inRange lo hi x -> leb (Fin lo) x = true /\ leb x (Fin hi) = true.
Proof.
  intros (a & -> & Hlo & Hhi). simpl. split; now apply Qle_bool_iff.
Qed.

(** the score is [NaN] (when a difference is) or lies in [[0, 10]] *)
Lemma calcStrength_range (priceDiff cciDiff : num)
  (isExtreme highVolume momentumConfirm : bool) :
  let s := calcStrength priceDiff cciDiff isExtreme highVolume momentumConfirm in
  s = NaN \/ inRange 0 10 s.
Proof.
  cbv zeta. unfold calcStrength.
  change (of_Z 3) with (Fin 3). change (of_Z 100) with (Fin 100).
  change (of_Z 30) with (Fin 30). change (of_Z 10) with (Fin 10).
  change (of_Z 1) with (Fin 1).
  destruct (@capped_score 3 (abs priceDiff * Fin 100)%num) as [Ep|Hp];
    [lra | apply scale_nonNegative; [reflexivity|apply abs_nonNegative] | |].
  { left. rewrite Ep. reflexivity. }
  destruct (@capped_score 3 (abs cciDiff / Fin 30)%num) as [Ec|Hc];
    [lra | apply shrink_nonNegative; [reflexivity|apply abs_nonNegative] | |].
  { left. rewrite Ec. destruct (min _ _); reflexivity. }
  right.
  pose proof (@bonus_range isExtreme (3 # 2) ltac:(lra)) as He.
  pose proof (@bonus_range highVolume 1 ltac:(lra)) as Hv.
  pose proof (@bonus_range momentumConfirm 1 ltac:(lra)) as Hm.
  pose proof (inRange_add (inRange_add (inRange_add (inRange_add Hp Hc) He) Hv) Hm)
    as (s & Es & Hs0 & Hs1).
  rewrite Es. simpl.
  destruct (Qlt_bool s 10) eqn:E.
  - apply Qlt_bool_true in E. exists s. repeat split; lra.
  - exists 10%Q. repeat split; lra.
Qed.

(* ================================================================== *)
(** * Divergences                                                       *)
(* ================================================================== *)

Lemma emit_In (minStrength : num) (ty : DivergenceType) (s cc cp ts : num)
  (hv mc : bool) (d : Divergence) :
  In d (emit minStrength ty s cc cp ts hv mc) ->
  geb s minStrength = true /\
  d = mkDivergence ty s (getQuality s) cc cp ts hv mc.
Proof.
  unfold emit. destruct (geb s minStrength); simpl; [|contradiction].
  intros [<-|[]]. now split.
Qed.

Lemma gapRejected_false (prevIdx currIdx : nat) :
  gapRejected prevIdx currIdx = false <->
  (5 <= Z.of_nat currIdx - Z.of_nat prevIdx <= 60)%Z.
Proof.
  unfold gapRejected. cbv zeta. rewrite orb_false_iff.
  rewrite Z.ltb_ge, Z.gtb_ltb, Z.ltb_ge. lia.
Qed.

Section DetectFacts.

Variables (bars : list Bar) (cci momentum volume avgVolume : list num).
Variable minStrength : num.

(** What a pushed record carries over from its pivot pair: the gap
    passed the test, both bars exist, the strength is a [calcStrength]
    score that reached [minStrength], and value and timestamp are those
    of the current pivot. *)
Definition emittedAt (prevIdx currIdx : nat) (d : Divergence) : Prop :=
  gapRejected prevIdx currIdx = false /\
  exists (currBar : Bar) (priceDiff cciDiff : num) (isExtreme : bool),
    nth_error bars currIdx = Some currBar /\
    strength d = calcStrength priceDiff cciDiff isExtreme
                              (volumeConfirmed d) (momentumConfirmed d) /\
    geb (strength d) minStrength = true /\
    cciValue d = get cci currIdx /\
    timestamp d = t currBar.

Ltac emitted_record H :=
  apply emit_In in H as [Hge ->];
  do 4 eexists; cbn [strength volumeConfirmed momentumConfirmed cciValue
                     timestamp];
  repeat split; solve [eassumption | reflexivity].

Lemma bullishAt_In (prevIdx currIdx : nat) (pushed : list Divergence)
  (d : Divergence) :
  bullishAt bars cci momentum volume avgVolume minStrength prevIdx currIdx
    = Some pushed ->
  In d pushed -> emittedAt prevIdx currIdx d.
Proof.
  unfold bullishAt, emittedAt.
  destruct (gapRejected prevIdx currIdx) eqn:Egap.
  - intros [= <-] [].
  - destruct (nth_error bars currIdx) as [currBar|] eqn:Ecurr; [|discriminate].
    destruct (nth_error bars prevIdx) as [prevBar|]; [|discriminate].
    cbv zeta. intros [= <-] Hin. split; [reflexivity|].
    apply in_app_or in Hin as [Hin|Hin];
      match type of Hin with
      | In _ (if ?cond then _ else _) => destruct cond; [|contradiction]
      end;
      emitted_record Hin.
Qed.

Lemma bearishAt_In (prevIdx currIdx : nat) (pushed : list Divergence)
  (d : Divergence) :
  bearishAt bars cci momentum volume avgVolume minStrength prevIdx currIdx
    = Some pushed ->
  In d pushed -> emittedAt prevIdx currIdx d.
Proof.
  unfold bearishAt, emittedAt.
  destruct (gapRejected prevIdx currIdx) eqn:Egap.
  - intros [= <-] [].
  - destruct (nth_error bars currIdx) as [currBar|] eqn:Ecurr; [|discriminate].
    destruct (nth_error bars prevIdx) as [prevBar|]; [|discriminate].
    cbv zeta. intros [= <-] Hin. split; [reflexivity|].
    apply in_app_or in Hin as [Hin|Hin];
      match type of Hin with
      | In _ (if ?cond then _ else _) => destruct cond; [|contradiction]
      end;
      emitted_record Hin.
Qed.

(** a record is pushed for position [k] of a pivot list *)
Definition fromPair (body : nat -> nat -> option (list Divergence))
  (pivots : list nat) (d : Divergence) : Prop :=
  exists (k : nat) (pushed : list Divergence),
    1 <= k < length pivots /\
    body (nth (k - 1) pivots 0) (nth k pivots 0) = Some pushed /\
    In d pushed.

Section PairLoop.

Variable body : nat -> nat -> option (list Divergence).
Variable pivots : list nat.

Let step (acc : option (list Divergence)) (i : nat) :=
  match acc with
  | None => None
  | Some ds =>
      match body (nth (i - 1) pivots 0) (nth i pivots 0) with
      | None => None
      | Some pushed => Some (ds ++ pushed)
      end
  end.

Lemma pairLoop_thrown (positions : list nat) :
  fold_left step positions None = None.
Proof. induction positions as [|i rest IH]; simpl; auto. Qed.

Lemma pairLoop_fold_In (positions : list nat) (ds out : list Divergence)
  (d : Divergence) :
  fold_left step positions (Some ds) = Some out -> In d out ->
  In d ds \/
  exists (k : nat) (pushed : list Divergence),
    In k positions /\
    body (nth (k - 1) pivots 0) (nth k pivots 0) = Some pushed /\
    In d pushed.
Proof.
  revert ds. induction positions as [|i rest IH]; intros ds; simpl.
  - intros [= <-] Hin. now left.
  - destruct (body (nth (i - 1) pivots 0) (nth i pivots 0))
      as [pushed|] eqn:Ebody.
    + intros Hfold Hin.
      destruct (IH _ Hfold Hin) as [Hold|(k & p & Hk & Hb & Hp)].
      * apply in_app_or in Hold as [Hold|Hnew]; [now left|].
        right. exists i, pushed. auto.
      * right. exists k, p. auto.
    + rewrite pairLoop_thrown. discriminate.
Qed.

Lemma pairLoop_In (ds out : list Divergence) (d : Divergence) :
  pairLoop body pivots ds = Some out -> In d out ->
  In d ds \/ fromPair body pivots d.
Proof.
  unfold pairLoop. intros Hloop Hin.
  destruct (@pairLoop_fold_In _ ds out d Hloop Hin) as [Hold|(k & p & Hk & Hb & Hp)];
    [now left|].
  right. exists k, p. apply in_seq in Hk. repeat split; auto; lia.
Qed.

End PairLoop.

(** every collected record was pushed for an adjacent pair of low pivots
    by the bullish body or of high pivots by the bearish body *)
Lemma collectDivergences_In (collected : list Divergence) (d : Divergence) :
  collectDivergences bars cci momentum volume avgVolume minStrength
    = Some collected ->
  In d collected ->
  fromPair (bullishAt bars cci momentum volume avgVolume minStrength)
           (lows (findPivots cci 5 5)) d \/
  fromPair (bearishAt bars cci momentum volume avgVolume minStrength)
           (highs (findPivots cci 5 5)) d.
Proof.
  unfold collectDivergences. cbv zeta.
  destruct (pairLoop _ (lows _) []) as [bullish|] eqn:Elow; [|discriminate].
  intros Ehigh Hin.
  destruct (@pairLoop_In _ _ _ _ d Ehigh Hin) as [Hold|Hnew]; [|now right].
  destruct (@pairLoop_In _ _ _ _ d Elow Hold) as [[]|Hnew]. now left.
Qed.

(** the returned list is the collected one, filtered by recency *)
Lemma detectDivergences_filter (result : list Divergence) :
  detectDivergences bars cci momentum volume avgVolume minStrength
    = Some result ->
  exists collected,
    collectDivergences bars cci momentum volume avgVolume minStrength
      = Some collected /\
    result = filter (fun d => geb (timestamp d) (recentTimestamp bars))
                    collected.
Proof.
  unfold detectDivergences.
  destruct (collectDivergences _ _ _ _ _ _) as [collected|]; [|discriminate].
  intros [= <-]. now exists collected.
Qed.

Lemma detectDivergences_In (result : list Divergence) (d : Divergence) :
  detectDivergences bars cci momentum volume avgVolume minStrength
    = Some result ->
  In d result ->
  geb (timestamp d) (recentTimestamp bars) = true /\
  exists (pivots : list nat) (k : nat),
    (pivots = lows (findPivots cci 5 5) \/
     pivots = highs (findPivots cci 5 5)) /\
    1 <= k < length pivots /\
    emittedAt (nth (k - 1) pivots 0) (nth k pivots 0) d.
Proof.
  intros Hdet Hin.
  destruct (@detectDivergences_filter result Hdet) as (collected & Hcol & ->).
  apply filter_In in Hin as [Hin Hrecent]. split; [assumption|].
  destruct (@collectDivergences_In collected d Hcol Hin)
    as [(k & p & Hk & Hb & Hp)|(k & p & Hk & Hb & Hp)].
  - exists (lows (findPivots cci 5 5)), k.
    split; [now left|]. split; [assumption|].
    now apply (@bullishAt_In _ _ p d Hb).
  - exists (highs (findPivots cci 5 5)), k.
    split; [now right|]. split; [assumption|].
    now apply (@bearishAt_In _ _ p d Hb).
Qed.

End DetectFacts.

(* ================================================================== *)
(** * A sample scan                                                     *)
(* ================================================================== *)

(** an oscillator with low pivots at 5 and 11 and a high pivot at 8 *)
Definition pivotSeries : list num :=
  map of_Z [9; 8; 7; 6; 5; 0; 5; 6; 7; 6; 5; 1; 5; 6; 7; 8; 9]%Z.

Definition sampleLows : list Z :=
  [100; 100; 100; 100; 100; 100; 100; 100; 100; 100; 100; 90;
   100; 100; 100; 100; 100]%Z.

Definition sampleBar (low : Z) (ts : num) : Bar :=
  mkBar (of_Z 100) (of_Z 200) (of_Z low) (of_Z 100) (of_Z 1000) ts.

(** seventeen bars stamped 0..16; the low falls from 100 at bar 5 to 90
    at bar 11 while the oscillator rises from 0 to 1 *)
Definition sampleBars : list Bar :=
  mapi (fun low i => sampleBar low (of_nat i)) sampleLows.

Definition noSeries : list num := repeat NaN 17.

(** the regular bullish divergence of the sample, at bar 11 *)
Definition sampleDivergence : Divergence :=
  mkDivergence REG_BULL (Fin (91 # 30)) WEAK (Fin 1) (Fin 90) (Fin 11)
               false false.

Lemma sample_pivots :
  findPivots pivotSeries 5 5 = mkPivots [5; 11] [8].
Proof. vm_compute. reflexivity. Qed.

Lemma sample_scan :
  detectDivergences sampleBars pivotSeries noSeries noSeries noSeries (of_Z 3)
  = Some [sampleDivergence].
Proof. vm_compute. reflexivity. Qed.

(* ================================================================== *)
(** * Properties of the returned divergences                            *)
(* ================================================================== *)

Section Scored.

Variables (bars : list Bar) (cci momentum volume avgVolume : list num).
Variable minStrength : num.

(** the extreme-zone test of the bullish loop and of the bearish loop *)
Definition bullishExtreme (currIdx : nat) : bool :=
  ltb (get cci currIdx) (of_Z (-100)).

Definition bearishExtreme (currIdx : nat) : bool :=
  gtb (get cci currIdx) (of_Z 100).

(** what a record pushed for the low pivots [(prevIdx, currIdx)] was
    scored on: the relative move of the bar low, the move of the
    oscillator in the direction of the pattern, and the three flags *)
Definition bullishScored (prevIdx currIdx : nat) (d : Divergence) : Prop :=
  exists currBar prevBar : Bar,
    nth_error bars currIdx = Some currBar /\
    nth_error bars prevIdx = Some prevBar /\
    geb (strength d) minStrength = true /\
    volumeConfirmed d
    = gtb (get volume currIdx) (get avgVolume currIdx * Fin (12 # 10))%num /\
    momentumConfirmed d = gtb (get momentum currIdx) zero /\
    ((type d = REG_BULL /\
      strength d
      = calcStrength ((l currBar - l prevBar) / l prevBar)%num
                     (get cci currIdx - get cci prevIdx)%num
                     (bullishExtreme currIdx)
                     (volumeConfirmed d) (momentumConfirmed d)) \/
     (type d = HID_BULL /\
      strength d
      = calcStrength ((l currBar - l prevBar) / l prevBar)%num
                     (get cci prevIdx - get cci currIdx)%num
                     (bullishExtreme currIdx)
                     (volumeConfirmed d) (momentumConfirmed d))).

Definition bearishScored (prevIdx currIdx : nat) (d : Divergence) : Prop :=
  exists currBar prevBar : Bar,
    nth_error bars currIdx = Some currBar /\
    nth_error bars prevIdx = Some prevBar /\
    geb (strength d) minStrength = true /\
    volumeConfirmed d
    = gtb (get volume currIdx) (get avgVolume currIdx * Fin (12 # 10))%num /\
    momentumConfirmed d = ltb (get momentum currIdx) zero /\
    ((type d = REG_BEAR /\
      strength d
      = calcStrength ((h currBar - h prevBar) / h prevBar)%num
                     (get cci prevIdx - get cci currIdx)%num
                     (bearishExtreme currIdx)
                     (volumeConfirmed d) (momentumConfirmed d)) \/
     (type d = HID_BEAR /\
      strength d
      = calcStrength ((h prevBar - h currBar) / h prevBar)%num
                     (get cci currIdx - get cci prevIdx)%num
                     (bearishExtreme currIdx)
                     (volumeConfirmed d) (momentumConfirmed d))).

Ltac scored_record H side :=
  apply emit_In in H as [Hge ->];
  cbn [strength volumeConfirmed momentumConfirmed type];
  split; [exact Hge|]; split; [reflexivity|]; split; [reflexivity|];
  side; split; reflexivity.

Lemma bullishAt_scored (prevIdx currIdx : nat) (pushed : list Divergence)
  (d : Divergence) :
  bullishAt bars cci momentum volume avgVolume minStrength prevIdx currIdx
    = Some pushed ->
  In d pushed -> bullishScored prevIdx currIdx d.
Proof.
  unfold bullishAt, bullishScored, bullishExtreme.
  destruct (gapRejected prevIdx currIdx); [now intros [= <-] []|].
  destruct (nth_error bars currIdx) as [currBar|]; [|discriminate].
  destruct (nth_error bars prevIdx) as [prevBar|]; [|discriminate].
  cbv zeta. intros [= <-] Hin. exists currBar, prevBar.
  split; [reflexivity|]. split; [reflexivity|].
  apply in_app_or in Hin as [Hin|Hin];
    match type of Hin with
    | In _ (if ?cond then _ else _) => destruct cond; [|contradiction]
    end.
  - scored_record Hin ltac:(left).
  - scored_record Hin ltac:(right).
Qed.

Lemma bearishAt_scored (prevIdx currIdx : nat) (pushed : list Divergence)
  (d : Divergence) :
  bearishAt bars cci momentum volume avgVolume minStrength prevIdx currIdx
    = Some pushed ->
  In d pushed -> bearishScored prevIdx currIdx d.
Proof.
  unfold bearishAt, bearishScored, bearishExtreme.
  destruct (gapRejected prevIdx currIdx); [now intros [= <-] []|].
  destruct (nth_error bars currIdx) as [currBar|]; [|discriminate].
  destruct (nth_error bars prevIdx) as [prevBar|]; [|discriminate].
  cbv zeta. intros [= <-] Hin. exists currBar, prevBar.
  split; [reflexivity|]. split; [reflexivity|].
  apply in_app_or in Hin as [Hin|Hin];
    match type of Hin with
    | In _ (if ?cond then _ else _) => destruct cond; [|contradiction]
    end.
  - scored_record Hin ltac:(left).
  - scored_record Hin ltac:(right).
Qed.

End Scored.

(** the score of the specification, written out:
    [min(10, priceScore + oscillatorScore + bonuses)] *)
Definition scoreFormula (priceDelta oscillatorDelta : num)
  (extreme volumeOk momentumOk : bool) : num :=
  min (of_Z 10)
      (min (of_Z 3) (abs priceDelta * of_Z 100)
       + min (of_Z 3) (abs oscillatorDelta / of_Z 30)
       + (if extreme then Fin (3 # 2) else zero)
       + (if volumeOk then of_Z 1 else zero)
       + (if momentumOk then of_Z 1 else zero))%num.

(** C3.  Every returned divergence has a strength in [[0, 10]].  It was
    pushed for two adjacent pivots [prev], [curr] of one kind, and its
    strength is [min(10, priceScore + oscillatorScore + bonuses)] with
    [priceScore = min(3, |price delta ratio| * 100)] on the ratio
    [(price[curr] - price[prev]) / price[prev]] of the bar lows (bar
    highs for a bearish label), [oscillatorScore = min(3, |cci delta| / 30)]
    on the two oscillator values, and the bonuses 1.5 for [cci[curr]]
    beyond -100 (bullish) or +100 (bearish), 1 for volume above 1.2 times
    its average at [curr], and 1 for momentum at [curr] in the direction
    of the label. *)
Theorem detectDivergences_strength_range
  (bars : list Bar) (cci momentum volume avgVolume : list num)
  (minStrength : num) (result : list Divergence) (d : Divergence) :
  detectDivergences bars cci momentum volume avgVolume minStrength
    = Some result ->
  In d result ->
  (leb zero (strength d) = true /\ leb (strength d) (of_Z 10) = true) /\
  exists (pivots : list nat) (k : nat) (prevBar currBar : Bar),
    1 <= k < length pivots /\
    let prevIdx := nth (k - 1) pivots 0 in
    let currIdx := nth k pivots 0 in
    let prevCCI := get cci prevIdx in
    let currCCI := get cci currIdx in
    let highVol :=
      gtb (get volume currIdx) (get avgVolume currIdx * Fin (12 # 10))%num in
    nth_error bars prevIdx = Some prevBar /\
    nth_error bars currIdx = Some currBar /\
    volumeConfirmed d = highVol /\
    match type d with
    | REG_BULL =>
        pivots = lows (findPivots cci 5 5) /\
        momentumConfirmed d = gtb (get momentum currIdx) zero /\
        strength d
        = scoreFormula ((l currBar - l prevBar) / l prevBar)%num
                       (currCCI - prevCCI)%num
                       (ltb currCCI (of_Z (-100)))
                       highVol (gtb (get momentum currIdx) zero)
    | HID_BULL =>
        pivots = lows (findPivots cci 5 5) /\
        momentumConfirmed d = gtb (get momentum currIdx) zero /\
        strength d
        = scoreFormula ((l currBar - l prevBar) / l prevBar)%num
                       (prevCCI - currCCI)%num
                       (ltb currCCI (of_Z (-100)))
                       highVol (gtb (get momentum currIdx) zero)
    | REG_BEAR =>
        pivots = highs (findPivots cci 5 5) /\
        momentumConfirmed d = ltb (get momentum currIdx) zero /\
        strength d
        = scoreFormula ((h currBar - h prevBar) / h prevBar)%num
                       (prevCCI - currCCI)%num
                       (gtb currCCI (of_Z 100))
                       highVol (ltb (get momentum currIdx) zero)
    | HID_BEAR =>
        pivots = highs (findPivots cci 5 5) /\
        momentumConfirmed d = ltb (get momentum currIdx) zero /\
        strength d
        = scoreFormula ((h prevBar - h currBar) / h prevBar)%num
                       (currCCI - prevCCI)%num
                       (gtb currCCI (of_Z 100))
                       highVol (ltb (get momentum currIdx) zero)
    | BREW_BULL | BREW_BEAR => False
    end.
Proof.
  intros Hdet Hin.
  assert (Hrange : forall p c e,
            strength d = calcStrength p c e (volumeConfirmed d)
                                      (momentumConfirmed d) ->
            geb (strength d) minStrength = true ->
            leb zero (strength d) = true /\
            leb (strength d) (of_Z 10) = true).
  { intros p c e Hs Hge. apply leb_defined in Hge as [_ Hdef].
    destruct (calcStrength_range p c e (volumeConfirmed d)
                (momentumConfirmed d)) as [Hnan|Hr]; rewrite <- Hs in *.
    - rewrite Hnan in Hdef. discriminate.
    - now apply inRange_leb in Hr. }
  destruct (@detectDivergences_filter _ _ _ _ _ _ result Hdet)
    as (collected & Hcol & ->).
  apply filter_In in Hin as [Hin _].
  destruct (@collectDivergences_In _ _ _ _ _ _ collected d Hcol Hin)
    as [(k & p & Hk & Hb & Hp)|(k & p & Hk & Hb & Hp)].
  - destruct (@bullishAt_scored _ _ _ _ _ _ _ _ p d Hb Hp)
      as (cb & pb & Hcb & Hpb & Hge & Hvol & Hmom & Hkind).
    split.
    + destruct Hkind as [[_ Hs]|[_ Hs]]; exact (Hrange _ _ _ Hs Hge).
    + exists (lows (findPivots cci 5 5)), k, pb, cb.
      split; [assumption|]. cbv zeta.
      split; [assumption|]. split; [assumption|]. split; [assumption|].
      destruct Hkind as [[-> Hs]|[-> Hs]];
        (split; [reflexivity|]; split; [assumption|]);
        rewrite Hs, Hvol, Hmom; reflexivity.
  - destruct (@bearishAt_scored _ _ _ _ _ _ _ _ p d Hb Hp)
      as (cb & pb & Hcb & Hpb & Hge & Hvol & Hmom & Hkind).
    split.
    + destruct Hkind as [[_ Hs]|[_ Hs]]; exact (Hrange _ _ _ Hs Hge).
    + exists (highs (findPivots cci 5 5)), k, pb, cb.
      split; [assumption|]. cbv zeta.
      split; [assumption|]. split; [assumption|]. split; [assumption|].
      destruct Hkind as [[-> Hs]|[-> Hs]];
        (split; [reflexivity|]; split; [assumption|]);
        rewrite Hs, Hvol, Hmom; reflexivity.
Qed.

(** The sample divergence: low pivots 5 and 11, bar lows 100 and 90,
    oscillator 0 and 1, no bonus: [min(3, 0.1 * 100) + min(3, 1 / 30)]. *)
Lemma detectDivergences_strength_range_witness :
  (leb zero (strength sampleDivergence) = true /\
   leb (strength sampleDivergence) (of_Z 10) = true) /\
  strength sampleDivergence
  = scoreFormula ((of_Z 90 - of_Z 100) / of_Z 100)%num
                 (of_Z 1 - of_Z 0)%num false false false.
Proof.
  destruct (@detectDivergences_strength_range sampleBars pivotSeries noSeries
              noSeries noSeries (of_Z 3) [sampleDivergence] sampleDivergence
              sample_scan (or_introl eq_refl))
    as (Hrange & pivots & k & pb & cb & Hk & Hrest).
  split; [exact Hrange|]. reflexivity.
Defined.

(** C4.  A pair of pivots whose index gap is outside [[5, 60]] pushes
    nothing, and every returned divergence was pushed for two adjacent
    pivots of one kind whose gap lies in [[5, 60]]. *)
Theorem detectDivergences_gap
  (bars : list Bar) (cci momentum volume avgVolume : list num)
  (minStrength : num) :
  (forall prevIdx currIdx : nat,
     (Z.of_nat currIdx - Z.of_nat prevIdx < 5 \/
      60 < Z.of_nat currIdx - Z.of_nat prevIdx)%Z ->
     bullishAt bars cci momentum volume avgVolume minStrength prevIdx currIdx
       = Some [] /\
     bearishAt bars cci momentum volume avgVolume minStrength prevIdx currIdx
       = Some []) /\
  (forall (result : list Divergence) (d : Divergence),
     detectDivergences bars cci momentum volume avgVolume minStrength
       = Some result ->
     In d result ->
     exists (pivots : list nat) (k : nat),
       (pivots = lows (findPivots cci 5 5) \/
        pivots = highs (findPivots cci 5 5)) /\
       1 <= k < length pivots /\
       let prevIdx := nth (k - 1) pivots 0 in
       let currIdx := nth k pivots 0 in
       (5 <= Z.of_nat currIdx - Z.of_nat prevIdx <= 60)%Z /\
       cciValue d = get cci currIdx /\
       exists currBar : Bar,
         nth_error bars currIdx = Some currBar /\ timestamp d = t currBar).
Proof.
  split.
  - intros prevIdx currIdx Hgap.
    assert (Hrej : gapRejected prevIdx currIdx = true).
    { destruct (gapRejected prevIdx currIdx) eqn:E; [reflexivity|].
      apply gapRejected_false in E. lia. }
    unfold bullishAt, bearishAt. rewrite Hrej. now split.
  - intros result d Hdet Hin.
    destruct (@detectDivergences_In _ _ _ _ _ _ result d Hdet Hin)
      as (_ & pivots & k & Hkind & Hk & Hgap & currBar & priceDiff & cciDiff
          & isExtreme & Hbar & _ & _ & Hcci & Hts).
    exists pivots, k. split; [assumption|]. split; [assumption|].
    cbv zeta. split; [now apply gapRejected_false|].
    split; [assumption|]. now exists currBar.
Qed.

(** The divergence of the sample comes from the low pivots 5 and 11. *)
Lemma detectDivergences_gap_witness :
  exists (pivots : list nat) (k : nat),
    (pivots = lows (findPivots pivotSeries 5 5) \/
     pivots = highs (findPivots pivotSeries 5 5)) /\
    1 <= k < length pivots /\
    (5 <= Z.of_nat (nth k pivots 0%nat)
          - Z.of_nat (nth (k - 1)%nat pivots 0%nat) <= 60)%Z /\
    cciValue sampleDivergence = get pivotSeries (nth k pivots 0) /\
    exists currBar : Bar,
      nth_error sampleBars (nth k pivots 0) = Some currBar /\
      timestamp sampleDivergence = t currBar.
Proof.
  apply (proj2 (detectDivergences_gap sampleBars pivotSeries noSeries
                  noSeries noSeries (of_Z 3)) [sampleDivergence]).
  - exact sample_scan.
  - left. reflexivity.
Defined.

(** the cutoff of the recency filter: the timestamp of the bar when it
    is a number, zero when it is [NaN] *)
Definition cutoffOf (b : Bar) : num := if isNaN (t b) then zero else t b.

(** On a non-empty bar sequence the recency filter compares against
    [cutoffOf] of the bar at [max(0, n - 15)]: the returned list is the
    collected one without the divergences stamped before it. *)
Lemma detectDivergences_cutoff
  (bars : list Bar) (cci momentum volume avgVolume : list num)
  (minStrength : num) (result : list Divergence) :
  bars <> [] ->
  detectDivergences bars cci momentum volume avgVolume minStrength
    = Some result ->
  exists cutoffBar : Bar,
    nth_error bars (Z.to_nat (Z.max 0 (Z.of_nat (length bars) - 15)))
      = Some cutoffBar /\
    (exists collected : list Divergence,
       collectDivergences bars cci momentum volume avgVolume minStrength
         = Some collected /\
       result = filter (fun d => geb (timestamp d) (cutoffOf cutoffBar))
                       collected) /\
    forall d, In d result -> geb (timestamp d) (cutoffOf cutoffBar) = true.
Proof.
  intros Hne Hdet.
  destruct (nth_error bars (Z.to_nat (Z.max 0 (Z.of_nat (length bars) - 15))))
    as [cutoffBar|] eqn:Ebar.
  - exists cutoffBar. split; [reflexivity|].
    assert (Hsame : forall d,
              geb (timestamp d) (recentTimestamp bars)
              = geb (timestamp d) (cutoffOf cutoffBar)).
    { intros d. unfold recentTimestamp, cutoffOf, or_else. cbv zeta.
      rewrite Ebar. unfold geb.
      destruct (t cutoffBar) as [| | |q]; try reflexivity. simpl.
      destruct (Qeq_bool q 0) eqn:Eq; simpl; [|reflexivity].
      apply Qeq_bool_iff in Eq.
      destruct (timestamp d) as [| | |a]; try reflexivity. simpl.
      apply eq_true_iff_eq. rewrite !Qle_bool_iff. now rewrite Eq. }
    destruct (@detectDivergences_filter _ _ _ _ _ _ result Hdet)
      as (collected & Hcol & Hres).
    assert (Hfilter : result
              = filter (fun d => geb (timestamp d) (cutoffOf cutoffBar))
                       collected).
    { rewrite Hres. apply filter_ext. exact Hsame. }
    split; [now exists collected|].
    intros d Hin. rewrite Hfilter in Hin.
    now apply filter_In in Hin as [_ Hin].
  - apply nth_error_None in Ebar.
    destruct bars as [|b rest]; [contradiction|]. simpl length in Ebar. lia.
Qed.

(** C5.  On a non-empty bar sequence of length [n] whose bar at
    [max(0, n - 15)] carries a timestamp, every returned divergence has
    a timestamp greater than or equal to that timestamp, and the result
    is the collected list with the earlier divergences removed. *)
Theorem detectDivergences_recency
  (bars : list Bar) (cci momentum volume avgVolume : list num)
  (minStrength : num) (result : list Divergence) (cutoffBar : Bar) :
  bars <> [] ->
  nth_error bars (Z.to_nat (Z.max 0 (Z.of_nat (length bars) - 15)))
    = Some cutoffBar ->
  isNaN (t cutoffBar) = false ->
  detectDivergences bars cci momentum volume avgVolume minStrength
    = Some result ->
  (forall d, In d result -> geb (timestamp d) (t cutoffBar) = true) /\
  exists collected : list Divergence,
    collectDivergences bars cci momentum volume avgVolume minStrength
      = Some collected /\
    result = filter (fun d => geb (timestamp d) (t cutoffBar)) collected /\
    forall d, In d collected -> ltb (timestamp d) (t cutoffBar) = true ->
      ~ In d result.
Proof.
  intros Hne Hbar Hstamp Hdet.
  destruct (@detectDivergences_cutoff _ _ _ _ _ _ result Hne Hdet)
    as (b & Hb & (collected & Hcol & Hres) & Hall).
  assert (b = cutoffBar) as -> by congruence.
  assert (Hcut : cutoffOf cutoffBar = t cutoffBar)
    by (unfold cutoffOf; now rewrite Hstamp).
  rewrite Hcut in *.
  split; [exact Hall|].
  exists collected. split; [exact Hcol|]. split; [exact Hres|].
  intros d _ Hlt Hin. specialize (Hall d Hin).
  assert (Hd : isNaN (timestamp d) = false)
    by (unfold geb in Hall; now apply leb_defined in Hall).
  rewrite (geb_not_ltb _ _ Hd Hstamp), Hlt in Hall. discriminate.
Qed.

Lemma detectDivergences_recency_witness :
  geb (timestamp sampleDivergence) (of_nat 2) = true.
Proof.
  destruct (@detectDivergences_recency sampleBars pivotSeries noSeries
              noSeries noSeries (of_Z 3) [sampleDivergence]
              (sampleBar 100 (of_nat 2)))
    as (Hall & _).
  - discriminate.
  - reflexivity.
  - reflexivity.
  - exact sample_scan.
  - apply (Hall sampleDivergence). left. reflexivity.
Defined.

(* ================================================================== *)
(** * The zone label and the scan of one symbol                         *)
(* ================================================================== *)

Section Zone.

Import String.
Local Open Scope string_scope.

(** [export function getCCIZone(cci)] *)
Definition getCCIZone (cci : num) : string :=
  if Num.gtb cci (of_Z 200) then "EXTREME OB"
  else if Num.gtb cci (of_Z 100) then "Overbought"
  else if Num.ltb cci (of_Z (-200)) then "EXTREME OS"
  else if Num.ltb cci (of_Z (-100)) then "Oversold"
  else "Neutral".

End Zone.

(** [interface ScanResult]; [timestamp] is the [Date] of the scan *)
Record ScanResult : Type := mkScanResult {
  scan_symbol : String.string;
  scan_price : num;
  scan_cci : num;
  scan_momentum : num;
  scan_zone : String.string;
  scan_divergences : list Divergence;
  scan_timestamp : num
}.

(** what one round of the loop of [runScan] in [src/app/page.tsx] does
    with the bars of a symbol: [continue] on fewer than 50 bars, an
    exception caught by its [try], or a result pushed to [newResults] *)
Inductive ScanOutcome : Type :=
| Skipped : ScanOutcome
| Failed : ScanOutcome
| Scanned : ScanResult -> ScanOutcome.

(** The body of the [try] in [runScan] once [getAggregates] has returned
    [bars]; [now] is the value of [new Date()].  [calculateCCI(bars)] runs
    with its defaults, period 20 and smoothing 5. *)
Definition scanBars (symbol : String.string) (bars : list Bar)
  (minStrength now : num) : ScanOutcome :=
  if length bars <? 50 then Skipped (* continue *)
  else
    let ind := calculateCCI bars 20 5 in
    match detectDivergences bars (ind_cci ind) (ind_momentum ind)
                            (ind_volume ind) (ind_avgVolume ind) minStrength
    with
    | None => Failed
    | Some divergences =>
        let lastIdx := length bars - 1 in
        let currentCCI := get (ind_cci ind) lastIdx in
        let currentMomentum := get (ind_momentum ind) lastIdx in
        match nth_error bars lastIdx with
        | None => Failed
        | Some lastBar =>
            Scanned (mkScanResult symbol (c lastBar) currentCCI
                                  currentMomentum (getCCIZone currentCCI)
                                  divergences now)
        end
    end.

(* ================================================================== *)
(** * Lengths and bounds of the smoothed series                         *)
(* ================================================================== *)

Lemma cci_series_length (bars : list Bar) (period smoothing : nat) :
  length (ind_cci (calculateCCI bars period smoothing)) = length bars.
Proof.
  unfold calculateCCI. cbn [ind_cci].
  now rewrite !ema_length, rawCCI_length, hlc3_length.
Qed.

(** X1.  Every series that [calculateCCI] returns has one entry per bar. *)
Theorem calculateCCI_lengths (bars : list Bar) (period smoothing : nat) :
  let r := calculateCCI bars period smoothing in
  length (ind_cci r) = length bars /\
  length (ind_momentum r) = length bars /\
  length (ind_volume r) = length bars /\
  length (ind_avgVolume r) = length bars.
Proof.
  cbv zeta. unfold calculateCCI. cbn [ind_cci ind_momentum ind_volume ind_avgVolume].
  rewrite mapi_length, !ema_length, rawCCI_length, hlc3_length,
          sma_length, length_map.
  repeat split.
Qed.

(** X2.  The moving average is undefined during warm-up, so on an
    input shorter than the period it is undefined everywhere; on finite
    values and a period of at least one it is undefined during warm-up
    only. *)
Theorem sma_undefined_iff_warmup (values : list num) (period : nat) :
  (forall i, i < length values -> i + 1 < period ->
     get (sma values period) i = NaN) /\
  (length values < period ->
     Forall (fun x => x = NaN) (sma values period)) /\
  (0 < period -> allFinite values ->
   forall i, i < length values ->
     (isNaN (get (sma values period) i) = true <-> i + 1 < period)).
Proof.
  split; [|split].
  - intros i Hi Hw. now apply sma_warmup.
  - intros Hshort. apply Forall_forall. intros x Hx.
    apply (In_nth _ _ NaN) in Hx as (i & Hi & <-).
    rewrite sma_length in Hi. apply sma_warmup; lia.
  - intros Hpos Hvals i Hi. split.
    + intros Hnan.
      destruct (Nat.lt_ge_cases (i + 1) period) as [Hw|Hw]; [assumption|].
      pose proof (sma_finite Hvals Hpos Hi Hw) as Hfin.
      apply isFinite_not_NaN in Hfin. congruence.
    + intros Hw. now rewrite sma_warmup.
Qed.

Lemma sma_undefined_iff_warmup_witness :
  (isNaN (get (sma [of_Z 1; of_Z 3; of_Z 2] 2) 1) = true <-> 1 + 1 < 2) /\
  Forall (fun x => x = NaN) (sma [of_Z 1; of_Z 3] 5).
Proof.
  destruct (sma_undefined_iff_warmup [of_Z 1; of_Z 3; of_Z 2] 2)
    as (_ & _ & Hiff).
  destruct (sma_undefined_iff_warmup [of_Z 1; of_Z 3] 5)
    as (_ & Hshort & _).
  split.
  - apply Hiff; [lia|repeat constructor|simpl; lia].
  - apply Hshort. simpl. lia.
Defined.

(** adding and halving keep a value from going below zero *)
Lemma add_nonNegative (x y : num) :
  nonNegative x -> nonNegative y -> nonNegative (x + y)%num.
Proof.
  destruct x as [| | |a], y as [| | |b]; simpl; auto.
  intros Ha Hb. lra.
Qed.

Lemma div_count_nonNegative (x : num) (n : nat) :
  nonNegative x -> nonNegative (x / of_nat n)%num.
Proof.
  assert (Hn : (0 <= inject_Z (Z.of_nat n))%Q).
  { change 0%Q with (inject_Z 0). rewrite <- Zle_Qle. lia. }
  unfold of_nat, of_Z. destruct x as [| | |a]; simpl; intros Hx.
  - exact I.
  - apply Qle_bool_iff in Hn. now rewrite Hn.
  - contradiction.
  - destruct (Qeq_bool (inject_Z (Z.of_nat n)) 0) eqn:En.
    + destruct (Qeq_bool a 0) eqn:Ea; [exact I|].
      destruct (Qlt_bool 0 a) eqn:El; [exact I|].
      apply Qlt_bool_false in El.
      assert (Heq : (a == 0)%Q) by lra.
      apply Qeq_bool_iff in Heq. congruence.
    + simpl. apply Qeq_bool_neq in En.
      apply Qle_shift_div_l; lra.
Qed.

Lemma nonNegative_not_below_zero (x : num) :
  nonNegative x -> ltb x zero = false.
Proof.
  destruct x as [| | |a]; simpl; auto; try contradiction.
  intros Ha. unfold Qlt_bool. apply negb_false_iff. now apply Qle_bool_iff.
Qed.

Lemma deviation_nonNegative (mean : num) (w : list num) (acc : num) :
  nonNegative acc ->
  nonNegative (fold_left (fun a b => (a + abs (b - mean))%num) w acc).
Proof.
  revert acc. induction w as [|y w IH]; intros acc Hacc; simpl; [assumption|].
  apply IH. apply add_nonNegative; [assumption|apply abs_nonNegative].
Qed.

(** X3.  The mean deviation is never below zero, whatever the input and
    the period: each entry is [NaN], [Infinity] or a number [>= 0]. *)
Theorem meanDeviation_never_negative (values : list num) (period i : nat) :
  ltb (get (meanDeviation values period) i) zero = false /\
  (isNaN (get (meanDeviation values period) i) = false ->
   leb zero (get (meanDeviation values period) i) = true).
Proof.
  assert (Hnn : nonNegative (get (meanDeviation values period) i)).
  { destruct (Nat.lt_ge_cases i (length values)) as [Hi|Hi].
    - rewrite meanDeviation_nth by assumption.
      destruct (Z.of_nat i <? Z.of_nat period - 1)%Z; [exact I|].
      cbv zeta. apply div_count_nonNegative.
      apply deviation_nonNegative. simpl. lra.
    - unfold get. rewrite nth_overflow; [exact I|].
      now rewrite meanDeviation_length. }
  split; [now apply nonNegative_not_below_zero|].
  destruct (get (meanDeviation values period) i) as [| | |a];
    simpl in *; try discriminate; try contradiction; auto.
  intros _. now apply Qle_bool_iff.
Qed.

(* ================================================================== *)
(** * The guard of the raw oscillator                                   *)
(* ================================================================== *)





(* ================================================================== *)
(** * Momentum                                                          *)
(* ================================================================== *)

(** on finite prices every entry of [cci] is finite or undefined *)
Lemma cci_finiteOrNaN (bars : list Bar) (period smoothing i : nat) :
  barsFinite bars -> 0 < period -> i < length bars ->
  finiteOrNaN (get (ind_cci (calculateCCI bars period smoothing)) i).
Proof.
  intros Hfin Hpos Hi. unfold calculateCCI. cbn [ind_cci].
  pose proof (hlc3_finite Hfin) as Hh.
  assert (Hraw : forall k, k < length (rawCCI_of (hlc3_of bars) period) ->
                   finiteOrNaN (get (rawCCI_of (hlc3_of bars) period) k)).
  { intros k Hk. rewrite rawCCI_length in Hk. now apply rawCCI_pattern. }
  assert (Hmid : forall k,
            k < length (ema (rawCCI_of (hlc3_of bars) period) smoothing) ->
            finiteOrNaN (get (ema (rawCCI_of (hlc3_of bars) period) smoothing) k)).
  { intros k Hk. rewrite ema_length in Hk. now apply ema_pattern. }
  apply ema_pattern; [exact Hmid|].
  now rewrite ema_length, rawCCI_length, hlc3_length.
Qed.

Lemma momentum_nth (bars : list Bar) (period smoothing i : nat) :
  i < length bars ->
  let r := calculateCCI bars period smoothing in
  get (ind_momentum r) i = momentum_at (ind_cci r) (get (ind_cci r) i) i.
Proof.
  intros Hi. cbv zeta.
  pose proof (cci_series_length bars period smoothing) as Hlen.
  unfold calculateCCI in *. cbn [ind_cci ind_momentum] in *.
  unfold get at 1. rewrite mapi_nth with (da := NaN) by lia. reflexivity.
Qed.

(** X5.  On bars with finite prices the momentum at [i] is undefined
    exactly when [i = 0] or [cci[i]] or [cci[i-1]] is undefined, and is
    [cci[i] - cci[i-1]] everywhere else. *)
Theorem momentum_defined_iff (bars : list Bar) (period smoothing i : nat) :
  barsFinite bars -> 0 < period -> i < length bars ->
  let r := calculateCCI bars period smoothing in
  (isNaN (get (ind_momentum r) i) = true <->
   i = 0 \/ isNaN (get (ind_cci r) i) = true \/
   isNaN (get (ind_cci r) (i - 1)) = true) /\
  (isNaN (get (ind_momentum r) i) = false ->
   get (ind_momentum r) i
   = (get (ind_cci r) i - get (ind_cci r) (i - 1))%num).
Proof.
  intros Hfin Hpos Hi. cbv zeta.
  rewrite momentum_nth by assumption. unfold momentum_at.
  destruct (Nat.eqb_spec i 0) as [->|Hne]; cbn [orb isNaN].
  { split; [|discriminate]. split; auto. }
  pose proof (@cci_finiteOrNaN bars period smoothing i Hfin Hpos Hi) as Hcur.
  pose proof (@cci_finiteOrNaN bars period smoothing (i - 1) Hfin Hpos
                ltac:(lia)) as Hprev.
  destruct (isNaN (get (ind_cci (calculateCCI bars period smoothing)) i))
    eqn:Ecur; cbn [orb isNaN].
  { split; [|discriminate]. split; auto. }
  destruct (isNaN (get (ind_cci (calculateCCI bars period smoothing)) (i - 1)))
    eqn:Eprev; cbn [orb isNaN].
  { split; [|discriminate]. split; auto. }
  destruct Hcur as [Hcur|Hcur]; [congruence|].
  destruct Hprev as [Hprev|Hprev]; [congruence|].
  split; [|reflexivity].
  rewrite (isFinite_not_NaN _ (sub_finite _ _ Hcur Hprev)).
  split; [discriminate|]. intros [H|[H|H]]; [lia|discriminate|discriminate].
Qed.

Lemma momentum_defined_iff_witness :
  isNaN (get (ind_momentum (calculateCCI risingBars 2 5)) 2) = false /\
  get (ind_momentum (calculateCCI risingBars 2 5)) 2
  = (get (ind_cci (calculateCCI risingBars 2 5)) 2
     - get (ind_cci (calculateCCI risingBars 2 5)) 1)%num.
Proof.
  destruct (@momentum_defined_iff risingBars 2 5 2 risingBars_finite)
    as [_ Hval]; [lia|simpl; lia|].
  assert (Hdef : isNaN (get (ind_momentum (calculateCCI risingBars 2 5)) 2)
                 = false) by (vm_compute; reflexivity).
  split; [exact Hdef|]. exact (Hval Hdef).
Defined.

(* ================================================================== *)
(** * How undefined values travel                                       *)
(* ================================================================== *)

(** an undefined input is passed on by [ema], whatever came before *)
Lemma ema_NaN_propagates (values : list num) (period i : nat) :
  i < length values -> isNaN (get values i) = true ->
  isNaN (get (ema values period) i) = true.
Proof.
  intros Hi Hnan. destruct i as [|i].
  - now rewrite ema_first by lia.
  - rewrite ema_step by lia. replace (S i - 1) with i by lia.
    destruct (isNaN (get (ema values period) i)); [assumption|].
    destruct (get values (S i)); try discriminate. reflexivity.
Qed.

(** the guard of the raw oscillator *)
Definition guardFires (hlc3 : list num) (period i : nat) : Prop :=
  isNaN (get (sma hlc3 period) i) = true \/
  isNaN (get (meanDeviation hlc3 period) i) = true \/
  eqb (get (meanDeviation hlc3 period) i) zero = true.

Lemma rawCCI_guard_NaN (hlc3 : list num) (period i : nat) :
  i < length hlc3 -> guardFires hlc3 period i ->
  get (rawCCI_of hlc3 period) i = NaN.
Proof.
  intros Hi Hguard. rewrite rawCCI_nth by assumption. unfold rawCCI_at.
  destruct Hguard as [H|[H|H]]; rewrite H; rewrite ?orb_true_r; reflexivity.
Qed.

(** where the raw oscillator is undefined, so is [cci] *)
Lemma cci_NaN_of_raw (bars : list Bar) (period smoothing i : nat) :
  i < length bars ->
  isNaN (get (rawCCI_of (hlc3_of bars) period) i) = true ->
  isNaN (get (ind_cci (calculateCCI bars period smoothing)) i) = true.
Proof.
  intros Hi Hraw. unfold calculateCCI. cbn [ind_cci].
  apply ema_NaN_propagates;
    [now rewrite ema_length, rawCCI_length, hlc3_length|].
  apply ema_NaN_propagates; [now rewrite rawCCI_length, hlc3_length|].
  exact Hraw.
Qed.

Lemma cci_NaN_warmup (bars : list Bar) (period smoothing i : nat) :
  i < length bars -> i + 1 < period ->
  isNaN (get (ind_cci (calculateCCI bars period smoothing)) i) = true.
Proof.
  intros Hi Hw. apply cci_NaN_of_raw; [assumption|].
  rewrite rawCCI_guard_NaN; [reflexivity|now rewrite hlc3_length|].
  left. rewrite sma_warmup; [reflexivity|now rewrite hlc3_length|assumption].
Qed.



(* ================================================================== *)
(** * Too little history                                                *)
(* ================================================================== *)

Lemma findPivots_all_NaN (values : list num) (lookbackLeft lookbackRight : nat) :
  (forall i, isNaN (get values i) = true) ->
  findPivots values lookbackLeft lookbackRight = mkPivots [] [].
Proof.
  intros Hnan. rewrite findPivots_filter. cbv zeta. f_equal;
    (erewrite filter_ext; [apply filter_false|]);
    intros i; now rewrite Hnan.
Qed.

Lemma detectDivergences_no_pivots (bars : list Bar)
  (cci momentum volume avgVolume : list num) (minStrength : num) :
  findPivots cci 5 5 = mkPivots [] [] ->
  detectDivergences bars cci momentum volume avgVolume minStrength = Some [].
Proof.
  intros Hp. unfold detectDivergences, collectDivergences. cbv zeta.
  rewrite Hp. reflexivity.
Qed.

(** X6.  Fewer bars than the period give no signal: no window is ever
    full, so the oscillator is undefined at every index, no pivot is
    found and [detectDivergences] returns the empty list, whatever the
    other series and the threshold. *)
Theorem insufficient_history_no_divergence (bars : list Bar)
  (period smoothing : nat) :
  length bars < period ->
  let cci := ind_cci (calculateCCI bars period smoothing) in
  (forall i, get cci i = NaN) /\
  findPivots cci 5 5 = mkPivots [] [] /\
  forall (momentum volume avgVolume : list num) (minStrength : num),
    detectDivergences bars cci momentum volume avgVolume minStrength
    = Some [].
Proof.
  intros Hshort. cbv zeta.
  assert (Hnan : forall i,
            isNaN (get (ind_cci (calculateCCI bars period smoothing)) i) = true).
  { intros i. destruct (Nat.lt_ge_cases i (length bars)) as [Hi|Hi].
    - apply cci_NaN_warmup; [assumption|lia].
    - unfold get. rewrite nth_overflow; [reflexivity|].
      pose proof (cci_series_length bars period smoothing) as Hlen. lia. }
  assert (Hpiv : findPivots (ind_cci (calculateCCI bars period smoothing)) 5 5
                 = mkPivots [] []) by now apply findPivots_all_NaN.
  split; [|split].
  - intros i. specialize (Hnan i). now destruct (get _ i).
  - exact Hpiv.
  - intros. now apply detectDivergences_no_pivots.
Qed.

(** sixty bars at price 7, as in a market that does not move *)
Definition flatSixty : list Bar := map (fun i => priceBar 7 (Z.of_nat i)) (seq 0 60).

(** the three bars of [risingBars] against the default period 20 *)
Lemma insufficient_history_no_divergence_witness :
  detectDivergences risingBars (ind_cci (calculateCCI risingBars 20 5))
    (ind_momentum (calculateCCI risingBars 20 5))
    (ind_volume (calculateCCI risingBars 20 5))
    (ind_avgVolume (calculateCCI risingBars 20 5)) (of_Z 3)
  = Some [].
Proof.
  destruct (@insufficient_history_no_divergence risingBars 20 5)
    as (_ & _ & Hnone); [simpl; lia|].
  apply Hnone.
Defined.

(* ================================================================== *)
(** * Order and reach of the pivots                                     *)
(* ================================================================== *)

Lemma seq_ascending (start len : nat) : StronglySorted lt (seq start len).
Proof.
  revert start. induction len as [|len IH]; intros start; simpl.
  - constructor.
  - constructor; [apply IH|].
    apply Forall_forall. intros x Hx. apply in_seq in Hx. lia.
Qed.

Lemma filter_ascending (f : nat -> bool) (a : list nat) :
  StronglySorted lt a -> StronglySorted lt (filter f a).
Proof.
  induction 1 as [|x a Hsorted IH Hx]; simpl; [constructor|].
  destruct (f x); [|assumption].
  constructor; [assumption|].
  rewrite Forall_forall in *. intros y Hy.
  apply filter_In in Hy as [Hy _]. now apply Hx.
Qed.

Lemma pivots_ascending (values : list num) (lookbackLeft lookbackRight : nat) :
  StronglySorted lt (lows (findPivots values lookbackLeft lookbackRight)) /\
  StronglySorted lt (highs (findPivots values lookbackLeft lookbackRight)).
Proof.
  rewrite findPivots_filter. cbv zeta. cbn [lows highs].
  split; apply filter_ascending, seq_ascending.
Qed.

Lemma ascending_nth (a : list nat) (j k : nat) :
  StronglySorted lt a -> j < k < length a -> nth j a 0 < nth k a 0.
Proof.
  intros Hs. revert j k.
  induction Hs as [|x a Hs IH Hx]; intros j k [Hjk Hk]; simpl in *; [lia|].
  destruct k as [|k]; [lia|]. destruct j as [|j].
  - rewrite Forall_forall in Hx. apply Hx. apply nth_In. lia.
  - apply IH. lia.
Qed.

(** X7.  [findPivots] returns both lists in strictly ascending index
    order, so no index is listed twice and, of two adjacent entries, the
    current one lies after the previous one. *)
Theorem findPivots_ascending (values : list num)
  (lookbackLeft lookbackRight : nat) :
  let p := findPivots values lookbackLeft lookbackRight in
  StronglySorted lt (lows p) /\ StronglySorted lt (highs p) /\
  (forall k, 1 <= k < length (lows p) ->
     nth (k - 1) (lows p) 0 < nth k (lows p) 0) /\
  (forall k, 1 <= k < length (highs p) ->
     nth (k - 1) (highs p) 0 < nth k (highs p) 0).
Proof.
  cbv zeta.
  destruct (pivots_ascending values lookbackLeft lookbackRight) as [Hl Hh].
  repeat split; try assumption;
    intros k Hk; apply ascending_nth; try assumption; lia.
Qed.

Section LoopFacts.

Variable body : nat -> nat -> option (list Divergence).
Variable pivots : list nat.

Let step (acc : option (list Divergence)) (i : nat) :=
  match acc with
  | None => None
  | Some ds =>
      match body (nth (i - 1) pivots 0) (nth i pivots 0) with
      | None => None
      | Some pushed => Some (ds ++ pushed)
      end
  end.

Lemma loop_thrown (positions : list nat) :
  fold_left step positions None = None.
Proof. induction positions as [|i rest IH]; simpl; auto. Qed.

(** the loop returns what its rounds pushed, in order, unless one threw *)
Lemma loop_fold_spec (positions : list nat) (ds : list Divergence) :
  (exists k, In k positions /\
             body (nth (k - 1) pivots 0) (nth k pivots 0) = None) /\
  fold_left step positions (Some ds) = None
  \/
  exists pushes : list (list Divergence),
    Forall2 (fun k pushed =>
               body (nth (k - 1) pivots 0) (nth k pivots 0) = Some pushed)
            positions pushes /\
    fold_left step positions (Some ds) = Some (ds ++ concat pushes).
Proof.
  revert ds. induction positions as [|i rest IH]; intros ds.
  - right. exists []. split; [constructor|]. simpl. now rewrite app_nil_r.
  - change (fold_left step (i :: rest) (Some ds))
      with (fold_left step rest (step (Some ds) i)).
    destruct (body (nth (i - 1) pivots 0) (nth i pivots 0))
      as [pushed|] eqn:Ebody.
    + replace (step (Some ds) i) with (Some (ds ++ pushed))
        by (unfold step; now rewrite Ebody).
      destruct (IH (ds ++ pushed)) as [[(k & Hk & Hnone) Hfold]
                                      |(pushes & Hall & Hfold)].
      * left. split; [|exact Hfold]. exists k. split; [now right|exact Hnone].
      * right. exists (pushed :: pushes). split; [now constructor|].
        rewrite Hfold. cbn [concat]. now rewrite app_assoc.
    + replace (step (Some ds) i) with (@None (list Divergence))
        by (unfold step; now rewrite Ebody).
      left. split; [|apply loop_thrown]. exists i. split; [now left|exact Ebody].
Qed.

Lemma pairLoop_spec (ds : list Divergence) :
  (exists k, 1 <= k < length pivots /\
             body (nth (k - 1) pivots 0) (nth k pivots 0) = None) /\
  pairLoop body pivots ds = None
  \/
  exists pushes : list (list Divergence),
    Forall2 (fun k pushed =>
               body (nth (k - 1) pivots 0) (nth k pivots 0) = Some pushed)
            (seq 1 (length pivots - 1)) pushes /\
    pairLoop body pivots ds = Some (ds ++ concat pushes).
Proof.
  unfold pairLoop.
  destruct (loop_fold_spec (seq 1 (length pivots - 1)) ds)
    as [[(k & Hk & Hnone) Hfold]|Hok].
  - left. split; [|exact Hfold]. exists k. apply in_seq in Hk.
    split; [lia|exact Hnone].
  - now right.
Qed.

End LoopFacts.

Lemma Forall2_all_nil (A B : Type) (R : A -> list B -> Prop)
  (xs : list A) (ys : list (list B)) :
  Forall2 R xs ys -> (forall x y, In x xs -> R x y -> y = []) ->
  concat ys = [].
Proof.
  induction 1 as [|x y xs ys Hxy _ IH]; intros Hnil; [reflexivity|].
  cbn [concat]. rewrite (Hnil x y (or_introl eq_refl) Hxy).
  apply IH. intros x' y' Hin. apply Hnil. now right.
Qed.

Lemma pivot_reach (values : list num) (lookbackLeft lookbackRight : nat)
  (pivots : list nat) (k : nat) :
  pivots = lows (findPivots values lookbackLeft lookbackRight) \/
  pivots = highs (findPivots values lookbackLeft lookbackRight) ->
  k < length pivots ->
  lookbackLeft <= nth k pivots 0 /\
  nth k pivots 0 + lookbackRight < length values.
Proof.
  intros Hkind Hk.
  assert (Hin : In (nth k pivots 0) pivots) by now apply nth_In.
  destruct Hkind as [-> | ->].
  - apply low_pivot_iff in Hin as (H1 & H2 & _). now split.
  - apply high_pivot_iff in Hin as (H1 & H2 & _). now split.
Qed.

(** X8.  An oscillator of fewer than 16 values cannot hold two pivots
    five bars apart: [detectDivergences] returns the empty list without
    reading a single bar. *)
Theorem detectDivergences_short_series (bars : list Bar)
  (cci momentum volume avgVolume : list num) (minStrength : num) :
  length cci < 16 ->
  detectDivergences bars cci momentum volume avgVolume minStrength = Some [].
Proof.
  intros Hshort.
  assert (Hskip : forall pivots k,
            pivots = lows (findPivots cci 5 5) \/
            pivots = highs (findPivots cci 5 5) ->
            1 <= k < length pivots ->
            gapRejected (nth (k - 1) pivots 0) (nth k pivots 0) = true).
  { intros pivots k Hkind Hk.
    destruct (@pivot_reach cci 5 5 pivots k Hkind) as [_ Hcur]; [lia|].
    destruct (@pivot_reach cci 5 5 pivots (k - 1) Hkind) as [Hprev _]; [lia|].
    destruct (gapRejected _ _) eqn:E; [reflexivity|].
    apply gapRejected_false in E. lia. }
  assert (Hloop : forall body pivots,
            (pivots = lows (findPivots cci 5 5) \/
             pivots = highs (findPivots cci 5 5)) ->
            (forall prevIdx currIdx,
               gapRejected prevIdx currIdx = true ->
               body prevIdx currIdx = Some []) ->
            pairLoop body pivots [] = Some ([] : list Divergence)).
  { intros body pivots Hkind Hbody.
    destruct (pairLoop_spec body pivots [])
      as [[(k & Hk & Hnone) _]|(pushes & Hall & ->)].
    - rewrite Hbody in Hnone by now apply Hskip. discriminate.
    - cbn [app]. f_equal. apply (Forall2_all_nil Hall).
      intros k pushed Hin Hpushed. apply in_seq in Hin.
      rewrite Hbody in Hpushed by (apply Hskip; [assumption|lia]).
      congruence. }
  unfold detectDivergences, collectDivergences. cbv zeta.
  rewrite Hloop; [rewrite Hloop; [reflexivity| |]|now left|].
  - now right.
  - intros p q Hr. unfold bearishAt. now rewrite Hr.
  - intros p q Hr. unfold bullishAt. now rewrite Hr.
Qed.

Lemma detectDivergences_short_series_witness :
  detectDivergences [] (repeat (of_Z 1) 15) [] [] [] (of_Z 0) = Some [].
Proof.
  apply detectDivergences_short_series. simpl. lia.
Defined.

(* ================================================================== *)
(** * When the detector throws                                          *)
(* ================================================================== *)

Section Throws.

Variables (bars : list Bar) (cci momentum volume avgVolume : list num).
Variable minStrength : num.

Lemma bullishAt_None (prevIdx currIdx : nat) :
  bullishAt bars cci momentum volume avgVolume minStrength prevIdx currIdx
    = None <->
  gapRejected prevIdx currIdx = false /\
  (nth_error bars currIdx = None \/ nth_error bars prevIdx = None).
Proof.
  unfold bullishAt. destruct (gapRejected prevIdx currIdx).
  - split; [discriminate|]. now intros [? _].
  - destruct (nth_error bars currIdx), (nth_error bars prevIdx); cbv zeta;
      split; try discriminate; auto;
      intros [_ [H|H]]; discriminate.
Qed.

Lemma bearishAt_None (prevIdx currIdx : nat) :
  bearishAt bars cci momentum volume avgVolume minStrength prevIdx currIdx
    = None <->
  gapRejected prevIdx currIdx = false /\
  (nth_error bars currIdx = None \/ nth_error bars prevIdx = None).
Proof.
  unfold bearishAt. destruct (gapRejected prevIdx currIdx).
  - split; [discriminate|]. now intros [? _].
  - destruct (nth_error bars currIdx), (nth_error bars prevIdx); cbv zeta;
      split; try discriminate; auto;
      intros [_ [H|H]]; discriminate.
Qed.

(** an accepted pair of adjacent pivots whose current bar is missing *)
Definition missingBarPair (pivots : list nat) (k : nat) : Prop :=
  (pivots = lows (findPivots cci 5 5) \/
   pivots = highs (findPivots cci 5 5)) /\
  1 <= k < length pivots /\
  gapRejected (nth (k - 1) pivots 0) (nth k pivots 0) = false /\
  length bars <= nth k pivots 0.

Lemma missing_current (pivots : list nat) (k : nat) :
  pivots = lows (findPivots cci 5 5) \/
  pivots = highs (findPivots cci 5 5) ->
  1 <= k < length pivots ->
  nth_error bars (nth k pivots 0) = None \/
  nth_error bars (nth (k - 1) pivots 0) = None ->
  length bars <= nth k pivots 0.
Proof.
  intros Hkind Hk Hnone.
  assert (Hlt : nth (k - 1) pivots 0 < nth k pivots 0).
  { destruct (pivots_ascending cci 5 5) as [Hl Hh].
    apply ascending_nth; [|lia]. now destruct Hkind as [-> | ->]. }
  destruct Hnone as [H|H]; apply nth_error_None in H; lia.
Qed.

Lemma collect_None_pair :
  collectDivergences bars cci momentum volume avgVolume minStrength = None ->
  exists pivots k, missingBarPair pivots k.
Proof.
  unfold collectDivergences. cbv zeta.
  destruct (pairLoop_spec
              (bullishAt bars cci momentum volume avgVolume minStrength)
              (lows (findPivots cci 5 5)) [])
    as [[(k & Hk & Hnone) _]|(pushes & _ & ->)].
  - intros _. exists (lows (findPivots cci 5 5)), k.
    apply bullishAt_None in Hnone as [Hgap Hmiss].
    repeat split; auto; try lia. apply missing_current; auto.
  - destruct (pairLoop_spec
                (bearishAt bars cci momentum volume avgVolume minStrength)
                (highs (findPivots cci 5 5)) ([] ++ concat pushes))
      as [[(k & Hk & Hnone) _]|(pushes' & _ & ->)]; [|discriminate].
    intros _. exists (highs (findPivots cci 5 5)), k.
    apply bearishAt_None in Hnone as [Hgap Hmiss].
    repeat split; auto; try lia. apply missing_current; auto.
Qed.

Lemma Forall2_In_left (A B : Type) (R : A -> B -> Prop)
  (xs : list A) (ys : list B) (x : A) :
  Forall2 R xs ys -> In x xs -> exists y, R x y.
Proof.
  induction 1 as [|x' y xs ys Hxy _ IH]; intros Hin; [contradiction|].
  destruct Hin as [<-|Hin]; [now exists y|auto].
Qed.

Lemma pairLoop_throws (body : nat -> nat -> option (list Divergence))
  (pivots : list nat) (ds : list Divergence) (k : nat) :
  1 <= k < length pivots ->
  body (nth (k - 1) pivots 0) (nth k pivots 0) = None ->
  pairLoop body pivots ds = None.
Proof.
  intros Hk Hnone.
  destruct (pairLoop_spec body pivots ds) as [[_ H]|(pushes & Hall & _)];
    [exact H|].
  destruct (@Forall2_In_left _ _ _ _ _ k Hall) as (pushed & Hpushed);
    [apply in_seq; lia|congruence].
Qed.

(** when every series is at least as long as the oscillator nothing is
    missing *)
Lemma detectDivergences_total :
  length cci <= length bars ->
  exists result,
    detectDivergences bars cci momentum volume avgVolume minStrength
    = Some result.
Proof.
  intros Hlen. unfold detectDivergences.
  destruct (collectDivergences _ _ _ _ _ _) as [collected|] eqn:Ecol;
    [now eexists|].
  destruct (collect_None_pair Ecol) as (pivots & k & Hkind & Hk & _ & Hmiss).
  destruct (@pivot_reach cci 5 5 pivots k Hkind) as [_ Hreach]; lia.
Qed.

End Throws.

(** X9.  [detectDivergences] throws exactly when two adjacent pivots of
    one kind pass the gap test and the bar of the current pivot is
    missing from [bars]; in every other case it returns a list. *)
Theorem detectDivergences_throws_iff (bars : list Bar)
  (cci momentum volume avgVolume : list num) (minStrength : num) :
  detectDivergences bars cci momentum volume avgVolume minStrength = None <->
  exists (pivots : list nat) (k : nat),
    (pivots = lows (findPivots cci 5 5) \/
     pivots = highs (findPivots cci 5 5)) /\
    1 <= k < length pivots /\
    (5 <= Z.of_nat (nth k pivots 0%nat)
          - Z.of_nat (nth (k - 1)%nat pivots 0%nat) <= 60)%Z /\
    length bars <= nth k pivots 0.
Proof.
  split.
  - intros Hnone.
    assert (Hcol : collectDivergences bars cci momentum volume avgVolume
                     minStrength = None).
    { unfold detectDivergences in Hnone.
      now destruct (collectDivergences _ _ _ _ _ _). }
    destruct (@collect_None_pair _ _ _ _ _ _ Hcol)
      as (pivots & k & Hkind & Hk & Hgap & Hmiss).
    exists pivots, k. repeat split; auto; try lia;
      apply gapRejected_false in Hgap; lia.
  - intros (pivots & k & Hkind & Hk & Hgap & Hmiss).
    apply gapRejected_false in Hgap.
    assert (Hcur : nth_error bars (nth k pivots 0) = None)
      by now apply nth_error_None.
    unfold detectDivergences, collectDivergences. cbv zeta.
    destruct Hkind as [-> | ->].
    + rewrite (@pairLoop_throws _ _ _ k Hk); [reflexivity|].
      apply bullishAt_None. auto.
    + destruct (pairLoop _ (lows _) []) as [ds|]; [|reflexivity].
      rewrite (@pairLoop_throws _ _ _ k Hk); [reflexivity|].
      apply bearishAt_None. auto.
Qed.

(** the sample oscillator with only six bars: the bar of pivot 11 is
    missing *)
Lemma detectDivergences_throws_iff_witness :
  detectDivergences (firstn 6 sampleBars) pivotSeries noSeries noSeries
                    noSeries (of_Z 3) = None.
Proof.
  apply detectDivergences_throws_iff.
  exists (lows (findPivots pivotSeries 5 5)), 1.
  rewrite sample_pivots. cbn [lows length nth Nat.sub].
  split; [now left|]. split; [lia|]. split; [simpl; lia|simpl; lia].
Defined.

(* ================================================================== *)
(** * What a returned divergence says                                   *)
(* ================================================================== *)

Section Classified.

Variables (bars : list Bar) (cci momentum volume avgVolume : list num).
Variable minStrength : num.

(** the volume flag of a record pushed at [currIdx] *)
Definition volumeFlagAt (currIdx : nat) : bool :=
  gtb (get volume currIdx) (get avgVolume currIdx * Fin (12 # 10))%num.

(** what the fields of a record pushed for the low pivots
    [(prevIdx, currIdx)] say about the two bars *)
Definition bullishRecord (prevIdx currIdx : nat) (d : Divergence) : Prop :=
  exists currBar prevBar : Bar,
    nth_error bars currIdx = Some currBar /\
    nth_error bars prevIdx = Some prevBar /\
    price d = l currBar /\
    cciValue d = get cci currIdx /\
    timestamp d = t currBar /\
    volumeConfirmed d = volumeFlagAt currIdx /\
    momentumConfirmed d = gtb (get momentum currIdx) zero /\
    quality d = getQuality (strength d) /\
    geb (strength d) minStrength = true /\
    ((type d = REG_BULL /\
      ltb (l currBar) (l prevBar) = true /\
      gtb (get cci currIdx) (get cci prevIdx) = true) \/
     (type d = HID_BULL /\
      gtb (l currBar) (l prevBar) = true /\
      ltb (get cci currIdx) (get cci prevIdx) = true)).

Definition bearishRecord (prevIdx currIdx : nat) (d : Divergence) : Prop :=
  exists currBar prevBar : Bar,
    nth_error bars currIdx = Some currBar /\
    nth_error bars prevIdx = Some prevBar /\
    price d = h currBar /\
    cciValue d = get cci currIdx /\
    timestamp d = t currBar /\
    volumeConfirmed d = volumeFlagAt currIdx /\
    momentumConfirmed d = ltb (get momentum currIdx) zero /\
    quality d = getQuality (strength d) /\
    geb (strength d) minStrength = true /\
    ((type d = REG_BEAR /\
      gtb (h currBar) (h prevBar) = true /\
      ltb (get cci currIdx) (get cci prevIdx) = true) \/
     (type d = HID_BEAR /\
      ltb (h currBar) (h prevBar) = true /\
      gtb (get cci currIdx) (get cci prevIdx) = true)).

Ltac pushed_record H side :=
  apply emit_In in H as [Hge ->];
  cbn [price cciValue timestamp volumeConfirmed momentumConfirmed quality
       strength type];
  repeat (split; [first [reflexivity | eassumption]|]);
  side; repeat split; assumption.

Lemma bullishAt_record (prevIdx currIdx : nat) (pushed : list Divergence)
  (d : Divergence) :
  bullishAt bars cci momentum volume avgVolume minStrength prevIdx currIdx
    = Some pushed ->
  In d pushed -> bullishRecord prevIdx currIdx d.
Proof.
  unfold bullishAt, bullishRecord, volumeFlagAt.
  destruct (gapRejected prevIdx currIdx); [now intros [= <-] []|].
  destruct (nth_error bars currIdx) as [currBar|]; [|discriminate].
  destruct (nth_error bars prevIdx) as [prevBar|]; [|discriminate].
  cbv zeta. intros [= <-] Hin. exists currBar, prevBar.
  split; [reflexivity|]. split; [reflexivity|].
  apply in_app_or in Hin as [Hin|Hin];
    match type of Hin with
    | In _ (if ?cond then _ else _) =>
        destruct cond eqn:Econd; [|contradiction];
        apply andb_true_iff in Econd as [Eprice Ecci]
    end.
  - pushed_record Hin ltac:(left).
  - pushed_record Hin ltac:(right).
Qed.

Lemma bearishAt_record (prevIdx currIdx : nat) (pushed : list Divergence)
  (d : Divergence) :
  bearishAt bars cci momentum volume avgVolume minStrength prevIdx currIdx
    = Some pushed ->
  In d pushed -> bearishRecord prevIdx currIdx d.
Proof.
  unfold bearishAt, bearishRecord, volumeFlagAt.
  destruct (gapRejected prevIdx currIdx); [now intros [= <-] []|].
  destruct (nth_error bars currIdx) as [currBar|]; [|discriminate].
  destruct (nth_error bars prevIdx) as [prevBar|]; [|discriminate].
  cbv zeta. intros [= <-] Hin. exists currBar, prevBar.
  split; [reflexivity|]. split; [reflexivity|].
  apply in_app_or in Hin as [Hin|Hin];
    match type of Hin with
    | In _ (if ?cond then _ else _) =>
        destruct cond eqn:Econd; [|contradiction];
        apply andb_true_iff in Econd as [Eprice Ecci]
    end.
  - pushed_record Hin ltac:(left).
  - pushed_record Hin ltac:(right).
Qed.

(** every returned record is a bullish record of two adjacent low pivots
    or a bearish record of two adjacent high pivots *)
Lemma detectDivergences_records (result : list Divergence) (d : Divergence) :
  detectDivergences bars cci momentum volume avgVolume minStrength
    = Some result ->
  In d result ->
  (exists k, 1 <= k < length (lows (findPivots cci 5 5)) /\
     bullishRecord (nth (k - 1) (lows (findPivots cci 5 5)) 0)
                   (nth k (lows (findPivots cci 5 5)) 0) d) \/
  (exists k, 1 <= k < length (highs (findPivots cci 5 5)) /\
     bearishRecord (nth (k - 1) (highs (findPivots cci 5 5)) 0)
                   (nth k (highs (findPivots cci 5 5)) 0) d).
Proof.
  intros Hdet Hin.
  destruct (@detectDivergences_filter _ _ _ _ _ _ result Hdet)
    as (collected & Hcol & ->).
  apply filter_In in Hin as [Hin _].
  destruct (@collectDivergences_In _ _ _ _ _ _ collected d Hcol Hin)
    as [(k & p & Hk & Hb & Hp)|(k & p & Hk & Hb & Hp)].
  - left. exists k. split; [assumption|].
    now apply (@bullishAt_record _ _ p d Hb).
  - right. exists k. split; [assumption|].
    now apply (@bearishAt_record _ _ p d Hb).
Qed.

End Classified.

(** [prevIdx] and [currIdx] are neighbours in a pivot list *)
Definition adjacentIn (pivots : list nat) (prevIdx currIdx : nat) : Prop :=
  exists k, 1 <= k < length pivots /\
            prevIdx = nth (k - 1) pivots 0 /\ currIdx = nth k pivots 0.

(** X10.  The label of a returned divergence tells what happened between
    two adjacent pivots: REG_BULL a lower bar low with a higher
    oscillator low, HID_BULL a higher bar low with a lower oscillator
    low, REG_BEAR a higher bar high with a lower oscillator high,
    HID_BEAR a lower bar high with a higher oscillator high.  Bullish
    labels come from low pivots and carry the bar low as price, bearish
    ones from high pivots and carry the bar high; the BREW labels are
    never produced. *)
Theorem detectDivergences_classified (bars : list Bar)
  (cci momentum volume avgVolume : list num) (minStrength : num)
  (result : list Divergence) (d : Divergence) :
  detectDivergences bars cci momentum volume avgVolume minStrength
    = Some result ->
  In d result ->
  exists (prevIdx currIdx : nat) (prevBar currBar : Bar),
    nth_error bars prevIdx = Some prevBar /\
    nth_error bars currIdx = Some currBar /\
    prevIdx < currIdx /\
    cciValue d = get cci currIdx /\
    timestamp d = t currBar /\
    volumeConfirmed d
    = gtb (get volume currIdx) (get avgVolume currIdx * Fin (12 # 10))%num /\
    let lowPivots := lows (findPivots cci 5 5) in
    let highPivots := highs (findPivots cci 5 5) in
    match type d with
    | REG_BULL =>
        adjacentIn lowPivots prevIdx currIdx /\
        In prevIdx lowPivots /\ In currIdx lowPivots /\
        price d = l currBar /\
        momentumConfirmed d = gtb (get momentum currIdx) zero /\
        ltb (l currBar) (l prevBar) = true /\
        gtb (get cci currIdx) (get cci prevIdx) = true
    | HID_BULL =>
        adjacentIn lowPivots prevIdx currIdx /\
        In prevIdx lowPivots /\ In currIdx lowPivots /\
        price d = l currBar /\
        momentumConfirmed d = gtb (get momentum currIdx) zero /\
        gtb (l currBar) (l prevBar) = true /\
        ltb (get cci currIdx) (get cci prevIdx) = true
    | REG_BEAR =>
        adjacentIn highPivots prevIdx currIdx /\
        In prevIdx highPivots /\ In currIdx highPivots /\
        price d = h currBar /\
        momentumConfirmed d = ltb (get momentum currIdx) zero /\
        gtb (h currBar) (h prevBar) = true /\
        ltb (get cci currIdx) (get cci prevIdx) = true
    | HID_BEAR =>
        adjacentIn highPivots prevIdx currIdx /\
        In prevIdx highPivots /\ In currIdx highPivots /\
        price d = h currBar /\
        momentumConfirmed d = ltb (get momentum currIdx) zero /\
        ltb (h currBar) (h prevBar) = true /\
        gtb (get cci currIdx) (get cci prevIdx) = true
    | BREW_BULL | BREW_BEAR => False
    end.
Proof.
  intros Hdet Hin.
  destruct (pivots_ascending cci 5 5) as [Hlows Hhighs].
  destruct (@detectDivergences_records _ _ _ _ _ _ result d Hdet Hin)
    as [(k & Hk & cb & pb & Hcb & Hpb & Hprice & Hcci & Hts & Hvol & Hmom
         & _ & _ & Hkind)
       |(k & Hk & cb & pb & Hcb & Hpb & Hprice & Hcci & Hts & Hvol & Hmom
         & _ & _ & Hkind)].
  - exists (nth (k - 1) (lows (findPivots cci 5 5)) 0),
           (nth k (lows (findPivots cci 5 5)) 0), pb, cb.
    repeat (split; [first [assumption | apply ascending_nth; [assumption|lia]]|]).
    cbv zeta.
    destruct Hkind as [(-> & Hp & Hc)|(-> & Hp & Hc)];
      (split; [exists k; repeat split; lia|]);
      repeat split; try assumption; apply nth_In; lia.
  - exists (nth (k - 1) (highs (findPivots cci 5 5)) 0),
           (nth k (highs (findPivots cci 5 5)) 0), pb, cb.
    repeat (split; [first [assumption | apply ascending_nth; [assumption|lia]]|]).
    cbv zeta.
    destruct Hkind as [(-> & Hp & Hc)|(-> & Hp & Hc)];
      (split; [exists k; repeat split; lia|]);
      repeat split; try assumption; apply nth_In; lia.
Qed.

Lemma detectDivergences_classified_witness :
  exists (prevIdx currIdx : nat) (prevBar currBar : Bar),
    nth_error sampleBars prevIdx = Some prevBar /\
    nth_error sampleBars currIdx = Some currBar /\
    prevIdx < currIdx /\
    adjacentIn (lows (findPivots pivotSeries 5 5)) prevIdx currIdx /\
    price sampleDivergence = l currBar /\
    ltb (l currBar) (l prevBar) = true /\
    gtb (get pivotSeries currIdx) (get pivotSeries prevIdx) = true.
Proof.
  destruct (@detectDivergences_classified sampleBars pivotSeries noSeries
              noSeries noSeries (of_Z 3) [sampleDivergence] sampleDivergence
              sample_scan (or_introl eq_refl))
    as (p & q & pb & cb & Hpb & Hcb & Hlt & _ & _ & _ & Hkind).
  cbv zeta in Hkind. cbn [type sampleDivergence] in Hkind.
  destruct Hkind as (Hadj & _ & _ & Hprice & _ & Hlow & Hosc).
  exists p, q, pb, cb. repeat (split; [assumption|]). assumption.
Defined.

(** above 7 is above 5 *)
Lemma geb_7_5 (s : num) : geb s (of_Z 7) = true -> geb s (of_Z 5) = true.
Proof.
  unfold geb, of_Z. destruct s as [| | |q]; simpl; auto.
  rewrite !Qle_bool_iff. change (inject_Z 7) with 7%Q.
  change (inject_Z 5) with 5%Q. lra.
Qed.

Lemma getQuality_tiers (s : num) :
  isNaN s = false ->
  (getQuality s = STRONG <-> geb s (of_Z 7) = true) /\
  (getQuality s = MODERATE <->
   geb s (of_Z 5) = true /\ ltb s (of_Z 7) = true) /\
  (getQuality s = WEAK <-> ltb s (of_Z 5) = true).
Proof.
  intros Hs.
  pose proof (@geb_not_ltb s (of_Z 7) Hs eq_refl) as H7.
  pose proof (@geb_not_ltb s (of_Z 5) Hs eq_refl) as H5.
  pose proof (@geb_7_5 s) as H75.
  unfold getQuality.
  destruct (geb s (of_Z 7)) eqn:E7.
  - rewrite H75 in H5 by reflexivity.
    symmetry in H7, H5. apply negb_true_iff in H7, H5. rewrite H7, H5.
    repeat split; try discriminate; auto. intros [_ H]. discriminate.
  - symmetry in H7. apply negb_false_iff in H7. rewrite H7.
    destruct (geb s (of_Z 5)) eqn:E5.
    + symmetry in H5. apply negb_true_iff in H5. rewrite H5.
      repeat split; try discriminate; auto.
    + symmetry in H5. apply negb_false_iff in H5. rewrite H5.
      repeat split; try discriminate; auto. intros [H _]. discriminate.
Qed.

(** X11.  Every returned divergence reached the threshold, and its
    quality is the tier of its strength: STRONG from 7, MODERATE from 5
    up to 7, WEAK below 5. *)
Theorem detectDivergences_threshold_quality (bars : list Bar)
  (cci momentum volume avgVolume : list num) (minStrength : num)
  (result : list Divergence) (d : Divergence) :
  detectDivergences bars cci momentum volume avgVolume minStrength
    = Some result ->
  In d result ->
  geb (strength d) minStrength = true /\
  (quality d = STRONG <-> geb (strength d) (of_Z 7) = true) /\
  (quality d = MODERATE <->
   geb (strength d) (of_Z 5) = true /\ ltb (strength d) (of_Z 7) = true) /\
  (quality d = WEAK <-> ltb (strength d) (of_Z 5) = true).
Proof.
  intros Hdet Hin.
  assert (Hfacts : quality d = getQuality (strength d) /\
                   geb (strength d) minStrength = true).
  { destruct (@detectDivergences_records _ _ _ _ _ _ result d Hdet Hin)
      as [(k & _ & cb & pb & _ & _ & _ & _ & _ & _ & _ & Hq & Hge & _)
         |(k & _ & cb & pb & _ & _ & _ & _ & _ & _ & _ & Hq & Hge & _)];
      now split. }
  destruct Hfacts as [Hq Hge]. split; [assumption|].
  rewrite Hq. apply getQuality_tiers.
  now apply leb_defined in Hge as [_ Hdef].
Qed.

Lemma detectDivergences_threshold_quality_witness :
  geb (strength sampleDivergence) (of_Z 3) = true /\
  (quality sampleDivergence = WEAK <->
   ltb (strength sampleDivergence) (of_Z 5) = true).
Proof.
  destruct (@detectDivergences_threshold_quality sampleBars pivotSeries
              noSeries noSeries noSeries (of_Z 3) [sampleDivergence]
              sampleDivergence sample_scan (or_introl eq_refl))
    as (Hge & _ & _ & Hweak).
  now split.
Defined.

(* ================================================================== *)
(** * The zone label                                                    *)
(* ================================================================== *)

Ltac Q_facts :=
  repeat match goal with
         | H : Qle_bool _ _ = true |- _ => apply Qle_bool_iff in H
         | H : Qle_bool ?a ?b = false |- _ =>
             assert (b < a)%Q
               by (apply Qnot_le_lt; intros Hle;
                   apply Qle_bool_iff in Hle; congruence);
             clear H
         end.

Section ZoneFacts.

Import String.
Local Open Scope string_scope.

(** X12.  [getCCIZone] splits the oscillator values at 100 and 200 on
    either side, the bounds themselves falling to the milder zone:
    above 200 EXTREME OB, above 100 up to 200 Overbought, below -200
    EXTREME OS, below -100 down to -200 Oversold, and Neutral from -100
    to 100 and for an undefined value. *)
Theorem getCCIZone_iff (x : num) :
  (getCCIZone x = "EXTREME OB" <-> Num.gtb x (of_Z 200) = true) /\
  (getCCIZone x = "Overbought" <->
   Num.gtb x (of_Z 100) = true /\ Num.leb x (of_Z 200) = true) /\
  (getCCIZone x = "EXTREME OS" <-> Num.ltb x (of_Z (-200)) = true) /\
  (getCCIZone x = "Oversold" <->
   Num.ltb x (of_Z (-100)) = true /\ Num.geb x (of_Z (-200)) = true) /\
  (getCCIZone x = "Neutral" <->
   isNaN x = true \/
   (Num.geb x (of_Z (-100)) = true /\ Num.leb x (of_Z 100) = true)).
Proof.
  destruct x as [| | |q].
  - vm_compute. intuition discriminate.
  - vm_compute. intuition discriminate.
  - vm_compute. intuition discriminate.
  - unfold getCCIZone, Num.gtb, Num.geb, of_Z.
    cbn [Num.ltb Num.leb isNaN]. unfold Qlt_bool.
    change (inject_Z 200) with 200%Q. change (inject_Z 100) with 100%Q.
    change (inject_Z (-200)) with (-200 # 1)%Q.
    change (inject_Z (-100)) with (-100 # 1)%Q.
    destruct (Qle_bool q 200) eqn:E1, (Qle_bool q 100) eqn:E2,
             (Qle_bool (-200 # 1) q) eqn:E3, (Qle_bool (-100 # 1) q) eqn:E4;
      cbn [negb];
      first [ solve [exfalso; Q_facts; lra]
            | solve [intuition discriminate] ].
Qed.

End ZoneFacts.

(* ================================================================== *)
(** * The strength score                                                *)
(* ================================================================== *)

(** the rational value of a bonus *)
Definition bonusOf (flag : bool) (bonus : Q) : Q := if flag then bonus else 0.

Lemma bonus_exact (flag : bool) (bonus : Q) :
  inRange (bonusOf flag bonus) (bonusOf flag bonus)
          (if flag then Fin bonus else zero).
Proof.
  destruct flag; [exists bonus | exists 0%Q]; simpl; repeat split; lra.
Qed.

(** X13.  The cap of [calcStrength] never binds: a score that is a
    number is the plain sum of its five terms, lies between the bonuses
    and the bonuses plus 6, and so never exceeds 9.5.  Without a bonus
    it is at most 6, hence never STRONG. *)
Theorem calcStrength_sum_bounds (priceDiff cciDiff : num)
  (isExtreme highVolume momentumConfirm : bool) :
  let s := calcStrength priceDiff cciDiff isExtreme highVolume
                        momentumConfirm in
  let bonuses := (bonusOf isExtreme (3 # 2) + bonusOf highVolume 1
                  + bonusOf momentumConfirm 1)%Q in
  (s = NaN \/
   (s = (min (of_Z 3) (abs priceDiff * of_Z 100)
         + min (of_Z 3) (abs cciDiff / of_Z 30)
         + (if isExtreme then Fin (3 # 2) else zero)
         + (if highVolume then of_Z 1 else zero)
         + (if momentumConfirm then of_Z 1 else zero))%num /\
    leb (Fin bonuses) s = true /\
    leb s (Fin (6 + bonuses)) = true /\
    leb s (Fin (19 # 2)) = true)) /\
  getQuality (calcStrength priceDiff cciDiff false false false) <> STRONG.
Proof.
  assert (Hmain : forall e v m,
    calcStrength priceDiff cciDiff e v m = NaN \/
    (calcStrength priceDiff cciDiff e v m
     = (min (of_Z 3) (abs priceDiff * of_Z 100)
        + min (of_Z 3) (abs cciDiff / of_Z 30)
        + (if e then Fin (3 # 2) else zero)
        + (if v then of_Z 1 else zero)
        + (if m then of_Z 1 else zero))%num /\
     inRange (bonusOf e (3 # 2) + bonusOf v 1 + bonusOf m 1)
             (6 + (bonusOf e (3 # 2) + bonusOf v 1 + bonusOf m 1))
             (calcStrength priceDiff cciDiff e v m))).
  { intros e v m. unfold calcStrength.
    change (of_Z 3) with (Fin 3). change (of_Z 100) with (Fin 100).
    change (of_Z 30) with (Fin 30). change (of_Z 10) with (Fin 10).
    change (of_Z 1) with (Fin 1).
    destruct (@capped_score 3 (abs priceDiff * Fin 100)%num) as [Ep|Hp];
      [lra | apply scale_nonNegative; [reflexivity|apply abs_nonNegative] | |].
    { left. rewrite Ep. reflexivity. }
    destruct (@capped_score 3 (abs cciDiff / Fin 30)%num) as [Ec|Hc];
      [lra | apply shrink_nonNegative; [reflexivity|apply abs_nonNegative] | |].
    { left. rewrite Ec. destruct (min _ _); reflexivity. }
    right.
    pose proof (inRange_add
                  (inRange_add
                     (inRange_add (inRange_add Hp Hc) (bonus_exact e (3 # 2)))
                     (bonus_exact v 1))
                  (bonus_exact m 1)) as (s & Es & Hs0 & Hs1).
    assert (Hb : (bonusOf e (3 # 2) + bonusOf v 1 + bonusOf m 1 <= 7 # 2)%Q)
      by (destruct e, v, m; vm_compute; discriminate).
    rewrite Es. cbn [min ltb].
    assert (Hlt : Qlt_bool s 10 = true).
    { unfold Qlt_bool. apply negb_true_iff.
      destruct (Qle_bool 10 s) eqn:E; [|reflexivity].
      apply Qle_bool_iff in E. lra. }
    rewrite Hlt. split; [reflexivity|].
    exists s. split; [reflexivity|]. split; lra. }
  cbv zeta. split.
  - destruct (Hmain isExtreme highVolume momentumConfirm)
      as [H|(Hsum & a & Ea & Ha1 & Ha2)]; [now left|right].
    split; [exact Hsum|]. rewrite Ea. cbn [leb].
    assert (Hb : (bonusOf isExtreme (3 # 2) + bonusOf highVolume 1
                  + bonusOf momentumConfirm 1 <= 7 # 2)%Q)
      by (destruct isExtreme, highVolume, momentumConfirm;
          vm_compute; discriminate).
    repeat split; apply Qle_bool_iff; lra.
  - destruct (Hmain false false false) as [H|(_ & a & Ea & _ & Ha2)].
    + rewrite H. discriminate.
    + rewrite Ea. unfold getQuality, geb, of_Z. cbn [leb].
      cbn [bonusOf] in Ha2.
      destruct (Qle_bool (inject_Z 7) a) eqn:E7.
      * apply Qle_bool_iff in E7. change (inject_Z 7) with 7%Q in E7. lra.
      * destruct (Qle_bool (inject_Z 5) a); discriminate.
Qed.

(* ================================================================== *)
(** * How many divergences, and how the threshold acts                  *)
(* ================================================================== *)

Lemma ltb_gtb_exclusive (a b : num) : ltb a b = true -> gtb a b = false.
Proof.
  unfold gtb. destruct a as [| | |p], b as [| | |q]; simpl; auto.
  unfold Qlt_bool. rewrite negb_true_iff, negb_false_iff.
  intros H. apply Qle_bool_iff. apply Qlt_le_weak. apply Qnot_le_lt.
  intros Hle. apply Qle_bool_iff in Hle. congruence.
Qed.

Lemma gtb_ltb_exclusive (a b : num) : gtb a b = true -> ltb a b = false.
Proof. unfold gtb. apply ltb_gtb_exclusive. Qed.

Lemma emit_length (minStrength : num) (ty : DivergenceType)
  (s cc cp ts : num) (hv mc : bool) :
  length (emit minStrength ty s cc cp ts hv mc) <= 1.
Proof. unfold emit. destruct (geb s minStrength); simpl; lia. Qed.

Section Counting.

Variables (bars : list Bar) (cci momentum volume avgVolume : list num).
Variable minStrength : num.

Lemma bullishAt_at_most_one (prevIdx currIdx : nat) (pushed : list Divergence) :
  bullishAt bars cci momentum volume avgVolume minStrength prevIdx currIdx
    = Some pushed ->
  length pushed <= 1.
Proof.
  unfold bullishAt.
  destruct (gapRejected prevIdx currIdx); [intros [= <-]; simpl; lia|].
  destruct (nth_error bars currIdx) as [cb|]; [|discriminate].
  destruct (nth_error bars prevIdx) as [pb|]; [|discriminate].
  cbv zeta. intros [= <-]. rewrite length_app.
  destruct (ltb (l cb) (l pb)) eqn:Elt.
  - rewrite (ltb_gtb_exclusive _ _ Elt). cbn [andb length].
    destruct (gtb (get cci currIdx) (get cci prevIdx)); cbn [length];
      [rewrite Nat.add_0_r; apply emit_length|lia].
  - cbn [andb length].
    destruct (gtb (l cb) (l pb) && ltb (get cci currIdx) (get cci prevIdx));
      cbn [length]; [apply emit_length|lia].
Qed.

Lemma bearishAt_at_most_one (prevIdx currIdx : nat) (pushed : list Divergence) :
  bearishAt bars cci momentum volume avgVolume minStrength prevIdx currIdx
    = Some pushed ->
  length pushed <= 1.
Proof.
  unfold bearishAt.
  destruct (gapRejected prevIdx currIdx); [intros [= <-]; simpl; lia|].
  destruct (nth_error bars currIdx) as [cb|]; [|discriminate].
  destruct (nth_error bars prevIdx) as [pb|]; [|discriminate].
  cbv zeta. intros [= <-]. rewrite length_app.
  destruct (gtb (h cb) (h pb)) eqn:Egt.
  - rewrite (gtb_ltb_exclusive _ _ Egt). cbn [andb length].
    destruct (ltb (get cci currIdx) (get cci prevIdx)); cbn [length];
      [rewrite Nat.add_0_r; apply emit_length|lia].
  - cbn [andb length].
    destruct (ltb (h cb) (h pb) && gtb (get cci currIdx) (get cci prevIdx));
      cbn [length]; [apply emit_length|lia].
Qed.

Lemma pushes_length (body : nat -> nat -> option (list Divergence))
  (pivots positions : list nat) (pushes : list (list Divergence)) :
  (forall p q pushed, body p q = Some pushed -> length pushed <= 1) ->
  Forall2 (fun k pushed =>
             body (nth (k - 1) pivots 0) (nth k pivots 0) = Some pushed)
          positions pushes ->
  length (concat pushes) <= length positions.
Proof.
  intros Hone. induction 1 as [|k pushed positions pushes Hk _ IH];
    [simpl; lia|].
  cbn [concat length]. rewrite length_app.
  pose proof (Hone _ _ _ Hk). lia.
Qed.

End Counting.

(** X14.  A pair of adjacent pivots yields at most one divergence (the
    regular and the hidden pattern exclude each other), so the result
    never has more entries than there are adjacent pairs of low pivots
    and of high pivots. *)
Theorem detectDivergences_one_per_pair (bars : list Bar)
  (cci momentum volume avgVolume : list num) (minStrength : num) :
  (forall prevIdx currIdx pushed,
     bullishAt bars cci momentum volume avgVolume minStrength prevIdx currIdx
       = Some pushed \/
     bearishAt bars cci momentum volume avgVolume minStrength prevIdx currIdx
       = Some pushed ->
     length pushed <= 1) /\
  (forall result,
     detectDivergences bars cci momentum volume avgVolume minStrength
       = Some result ->
     length result <= (length (lows (findPivots cci 5 5)) - 1)
                      + (length (highs (findPivots cci 5 5)) - 1)).
Proof.
  split.
  - intros p q pushed [H|H];
      [eapply bullishAt_at_most_one | eapply bearishAt_at_most_one];
      eassumption.
  - intros result Hdet.
    destruct (@detectDivergences_filter _ _ _ _ _ _ result Hdet)
      as (collected & Hcol & ->).
    etransitivity; [apply filter_length_le|].
    unfold collectDivergences in Hcol. cbv zeta in Hcol.
    destruct (pairLoop_spec
                (bullishAt bars cci momentum volume avgVolume minStrength)
                (lows (findPivots cci 5 5)) [])
      as [[_ Hnone]|(pushesL & HallL & HeqL)];
      rewrite ?Hnone, ?HeqL in Hcol; [discriminate|].
    destruct (pairLoop_spec
                (bearishAt bars cci momentum volume avgVolume minStrength)
                (highs (findPivots cci 5 5)) ([] ++ concat pushesL))
      as [[_ Hnone]|(pushesH & HallH & HeqH)];
      rewrite ?Hnone, ?HeqH in Hcol; [discriminate|].
    injection Hcol as <-. cbn [app]. rewrite length_app.
    pose proof (@pushes_length _ _ _ _
                  (@bullishAt_at_most_one bars cci momentum volume avgVolume
                     minStrength) HallL) as HL.
    pose proof (@pushes_length _ _ _ _
                  (@bearishAt_at_most_one bars cci momentum volume avgVolume
                     minStrength) HallH) as HH.
    rewrite length_seq in HL, HH. lia.
Qed.

Lemma detectDivergences_one_per_pair_witness :
  length [sampleDivergence]
  <= (length (lows (findPivots pivotSeries 5 5)) - 1)
     + (length (highs (findPivots pivotSeries 5 5)) - 1).
Proof.
  apply (proj2 (detectDivergences_one_per_pair sampleBars pivotSeries
                  noSeries noSeries noSeries (of_Z 3))).
  exact sample_scan.
Defined.

Lemma leb_trans (a b c : num) :
  leb a b = true -> leb b c = true -> leb a c = true.
Proof.
  destruct a as [| | |p], b as [| | |q], c as [| | |r]; simpl; auto;
    try discriminate.
  rewrite !Qle_bool_iff. apply Qle_trans.
Qed.

Lemma emit_incl (low high : num) (ty : DivergenceType) (s cc cp ts : num)
  (hv mc : bool) :
  leb low high = true ->
  incl (emit high ty s cc cp ts hv mc) (emit low ty s cc cp ts hv mc).
Proof.
  intros Hle d Hin. apply emit_In in Hin as [Hge ->].
  unfold emit. unfold geb in *. rewrite (leb_trans _ _ _ Hle Hge).
  now left.
Qed.

Section Threshold.

Variables (bars : list Bar) (cci momentum volume avgVolume : list num).
Variables low high : num.
Hypothesis low_le_high : leb low high = true.

Lemma branch_incl (cond : bool) (ty : DivergenceType) (s cc cp ts : num)
  (hv mc : bool) :
  incl (if cond then emit high ty s cc cp ts hv mc else [])
       (if cond then emit low ty s cc cp ts hv mc else []).
Proof.
  destruct cond; [now apply emit_incl|apply incl_refl].
Qed.

Lemma bullishAt_incl (prevIdx currIdx : nat) (pushed : list Divergence) :
  bullishAt bars cci momentum volume avgVolume high prevIdx currIdx
    = Some pushed ->
  exists pushed',
    bullishAt bars cci momentum volume avgVolume low prevIdx currIdx
      = Some pushed' /\
    incl pushed pushed'.
Proof.
  unfold bullishAt.
  destruct (gapRejected prevIdx currIdx).
  - intros [= <-]. exists []. split; [reflexivity|apply incl_refl].
  - destruct (nth_error bars currIdx) as [cb|]; [|discriminate].
    destruct (nth_error bars prevIdx) as [pb|]; [|discriminate].
    cbv zeta. intros [= <-]. eexists. split; [reflexivity|].
    apply incl_app_app; apply branch_incl.
Qed.

Lemma bearishAt_incl (prevIdx currIdx : nat) (pushed : list Divergence) :
  bearishAt bars cci momentum volume avgVolume high prevIdx currIdx
    = Some pushed ->
  exists pushed',
    bearishAt bars cci momentum volume avgVolume low prevIdx currIdx
      = Some pushed' /\
    incl pushed pushed'.
Proof.
  unfold bearishAt.
  destruct (gapRejected prevIdx currIdx).
  - intros [= <-]. exists []. split; [reflexivity|apply incl_refl].
  - destruct (nth_error bars currIdx) as [cb|]; [|discriminate].
    destruct (nth_error bars prevIdx) as [pb|]; [|discriminate].
    cbv zeta. intros [= <-]. eexists. split; [reflexivity|].
    apply incl_app_app; apply branch_incl.
Qed.

Variables bodyHigh bodyLow : nat -> nat -> option (list Divergence).
Hypothesis body_incl :
  forall p q pushed, bodyHigh p q = Some pushed ->
    exists pushed', bodyLow p q = Some pushed' /\ incl pushed pushed'.

Lemma pairLoop_incl (pivots : list nat) (ds ds' out : list Divergence) :
  incl ds ds' ->
  pairLoop bodyHigh pivots ds = Some out ->
  exists out', pairLoop bodyLow pivots ds' = Some out' /\ incl out out'.
Proof.
  unfold pairLoop. generalize (seq 1 (length pivots - 1)) as positions.
  intros positions. revert ds ds'.
  induction positions as [|i rest IH]; intros ds ds' Hincl; cbn [fold_left].
  - intros [= <-]. now exists ds'.
  - destruct (bodyHigh (nth (i - 1) pivots 0) (nth i pivots 0))
      as [pushed|] eqn:Ehigh.
    + destruct (body_incl Ehigh) as (pushed' & -> & Hp).
      apply IH. now apply incl_app_app.
    + intros Hfold. exfalso. revert Hfold. clear.
      induction rest as [|j rest IHr]; cbn [fold_left]; [discriminate|].
      exact IHr.
Qed.

End Threshold.

(** X15.  Lowering the threshold never loses a signal: if the scan
    returns a list for [high], it returns one for every [low <= high]
    and that list holds every divergence of the first. *)
Theorem detectDivergences_threshold_monotone (bars : list Bar)
  (cci momentum volume avgVolume : list num) (low high : num)
  (result : list Divergence) :
  leb low high = true ->
  detectDivergences bars cci momentum volume avgVolume high = Some result ->
  exists result',
    detectDivergences bars cci momentum volume avgVolume low = Some result' /\
    incl result result'.
Proof.
  intros Hle Hdet.
  destruct (@detectDivergences_filter _ _ _ _ _ _ result Hdet)
    as (collected & Hcol & ->).
  unfold collectDivergences in Hcol. cbv zeta in Hcol.
  destruct (pairLoop (bullishAt bars cci momentum volume avgVolume high)
                     (lows (findPivots cci 5 5)) [])
    as [bull|] eqn:Ebull; [|discriminate].
  destruct (@pairLoop_incl _ _
              (@bullishAt_incl bars cci momentum volume avgVolume low high Hle)
              _ [] [] bull (incl_refl _) Ebull) as (bull' & Ebull' & Hb).
  destruct (@pairLoop_incl _ _
              (@bearishAt_incl bars cci momentum volume avgVolume low high Hle)
              _ bull bull' collected Hb Hcol) as (collected' & Ecol' & Hc).
  unfold detectDivergences, collectDivergences. cbv zeta.
  rewrite Ebull', Ecol'. eexists. split; [reflexivity|].
  intros d Hin. apply filter_In in Hin as [Hin Hrecent].
  apply filter_In. split; [now apply Hc|assumption].
Qed.

Lemma detectDivergences_threshold_monotone_witness :
  exists result',
    detectDivergences sampleBars pivotSeries noSeries noSeries noSeries
                      (of_Z 1) = Some result' /\
    incl [sampleDivergence] result'.
Proof.
  apply (@detectDivergences_threshold_monotone sampleBars pivotSeries
           noSeries noSeries noSeries (of_Z 1) (of_Z 3) [sampleDivergence]).
  - reflexivity.
  - exact sample_scan.
Defined.

(* ================================================================== *)
(** * The scan of one symbol                                            *)
(* ================================================================== *)

(** X16.  The scan of a symbol never fails on the pipeline: fewer than
    50 bars are skipped, and from 50 bars on a result is pushed whose
    divergences are those of [detectDivergences] on the series of
    [calculateCCI(bars)], whose oscillator and momentum are the last
    entries of those series, whose price is the close of the last bar
    and whose zone is the zone of that oscillator value. *)
Theorem scanBars_outcome (symbol : String.string) (bars : list Bar)
  (minStrength now : num) :
  let ind := calculateCCI bars 20 5 in
  scanBars symbol bars minStrength now <> Failed /\
  (scanBars symbol bars minStrength now = Skipped <-> length bars < 50) /\
  (50 <= length bars ->
   exists (divergences : list Divergence) (lastBar : Bar),
     detectDivergences bars (ind_cci ind) (ind_momentum ind) (ind_volume ind)
                       (ind_avgVolume ind) minStrength = Some divergences /\
     nth_error bars (length bars - 1) = Some lastBar /\
     scanBars symbol bars minStrength now
     = Scanned (mkScanResult symbol (c lastBar)
                  (get (ind_cci ind) (length bars - 1))
                  (get (ind_momentum ind) (length bars - 1))
                  (getCCIZone (get (ind_cci ind) (length bars - 1)))
                  divergences now)).
Proof.
  cbv zeta.
  destruct (@detectDivergences_total bars
              (ind_cci (calculateCCI bars 20 5))
              (ind_momentum (calculateCCI bars 20 5))
              (ind_volume (calculateCCI bars 20 5))
              (ind_avgVolume (calculateCCI bars 20 5)) minStrength)
    as (divergences & Hdet);
    [rewrite cci_series_length; lia|].
  unfold scanBars. rewrite Hdet.
  destruct (Nat.ltb_spec (length bars) 50) as [Hshort|Hlong].
  - split; [discriminate|]. split; [tauto|lia].
  - destruct (nth_error bars (length bars - 1)) as [lastBar|] eqn:Elast.
    + split; [discriminate|]. split; [split; [discriminate|lia]|].
      intros _. now exists divergences, lastBar.
    + apply nth_error_None in Elast. lia.
Qed.

Lemma scanBars_outcome_witness :
  exists (divergences : list Divergence) (lastBar : Bar),
    nth_error flatSixty 59 = Some lastBar /\
    scanBars String.EmptyString flatSixty (of_Z 3) (of_Z 0)
    = Scanned (mkScanResult String.EmptyString (c lastBar)
                 (get (ind_cci (calculateCCI flatSixty 20 5)) 59)
                 (get (ind_momentum (calculateCCI flatSixty 20 5)) 59)
                 (getCCIZone (get (ind_cci (calculateCCI flatSixty 20 5)) 59))
                 divergences (of_Z 0)).
Proof.
  destruct (scanBars_outcome String.EmptyString flatSixty (of_Z 3) (of_Z 0))
    as (_ & _ & Hscan).
  destruct Hscan as (divergences & lastBar & _ & Hlast & Heq);
    [unfold flatSixty; rewrite length_map, length_seq; lia|].
  exists divergences, lastBar. split; [exact Hlast|exact Heq].
Defined.

(* ================================================================== *)
(** * The raw oscillator in binary64                                    *)
(* ================================================================== *)

(** The guard of the raw oscillator tests [meanDev], and the division
    is by [0.015 * meanDev].  Whether that product can be zero depends on
    rounding, which [num] leaves out; this module runs the same code on
    IEEE 754 binary64, the numbers of JavaScript. *)
Module Double.

Import Floats.
Local Open Scope float_scope.

Record Bar : Type := mkBar {
  o : float;  (* open *)
  h : float;  (* high *)
  l : float;  (* low *)
  c : float;  (* close *)
  v : float;  (* volume *)
  t : float   (* timestamp *)
}.

(** a count as a number; exact below 2^53 *)
Definition of_nat (n : nat) : float :=
  PrimFloat.of_uint63 (Uint63.of_Z (Z.of_nat n)).

Definition get (a : list float) (i : nat) : float := nth i a nan.

(** [a.reduce((x, y) => x + y, 0)] *)
Definition sum (a : list float) : float :=
  fold_left (fun x y => x + y) a 0.

(** [function sma(values, period)] *)
Definition sma (values : list float) (period : nat) : list float :=
  push_loop (List.length values) (fun _ i =>
    if (Z.of_nat i <? Z.of_nat period - 1)%Z then nan
    else
      let window := slice values (i + 1 - period)%nat (i + 1)%nat in
      sum window / of_nat period).

(** [function meanDeviation(values, period)] *)
Definition meanDeviation (values : list float) (period : nat) : list float :=
  push_loop (List.length values) (fun _ i =>
    if (Z.of_nat i <? Z.of_nat period - 1)%Z then nan
    else
      let window := slice values (i + 1 - period)%nat (i + 1)%nat in
      let mean := sum window / of_nat period in
      let deviation :=
        fold_left (fun a b => a + abs (b - mean)) window 0 / of_nat period in
      deviation).

(** typical price (HLC3) *)
Definition hlc3_of (bars : list Bar) : list float :=
  map (fun b => (h b + l b + c b) / 3) bars.

(** the literal [0.015]: the binary64 value nearest to it *)
Definition scale : float := 0x1.eb851eb851eb8p-7.

(** the divisor of the raw oscillator *)
Definition divisor (meanDev : list float) (i : nat) : float :=
  scale * get meanDev i.

(** the callback of [hlc3.map] that gives the raw CCI *)
Definition rawCCI_at (tpSma meanDev : list float) (tp : float) (i : nat)
  : float :=
  if is_nan (get tpSma i) || is_nan (get meanDev i)
     || PrimFloat.eqb (get meanDev i) 0
  then nan
  else (tp - get tpSma i) / divisor meanDev i.

Definition rawCCI_of (hlc3 : list float) (period : nat) : list float :=
  let tpSma := sma hlc3 period in
  let meanDev := meanDeviation hlc3 period in
  mapi (rawCCI_at tpSma meanDev) hlc3.

(** a bar whose prices are all [p] *)
Definition priceBar (p : float) : Bar := mkBar p p p p 10 0.

(** prices 0, 3e-323, 0: six units of the smallest subnormal in the
    middle *)
Definition tinyBars : list Bar :=
  [priceBar 0; priceBar 0x6p-1074; priceBar 0].

(** With period 2 the mean deviation at index 1 is 1.5e-323: a number,
    not zero, so the guard lets it pass; but [0.015 * 1.5e-323] rounds
    to zero and the quotient is an infinity. *)
Lemma tinyBars_trace :
  get (meanDeviation (hlc3_of tinyBars) 2) 1 = 0x3p-1074 /\
  divisor (meanDeviation (hlc3_of tinyBars) 2) 1 = 0 /\
  rawCCI_of (hlc3_of tinyBars) 2 = [nan; infinity; neg_infinity].
Proof. vm_compute. repeat split. Qed.


End Double.
